(** * Contact form: validation and interaction model

    A shallow embedding of the contact form page (the [Home] component):
    the six zod schemas, [validateForm], [getFormData], [handleFormSubmit],
    the per-field change handlers, and the event loop that runs them
    together with the [window.setTimeout] callbacks. *)

From stdpp Require Import gmap strings list fin_maps.

Open Scope string_scope.
Open Scope list_scope.

(** ** JavaScript strings

    A JavaScript string is a sequence of UTF-16 code units; [String.length]
    counts code units, and this is the length zod's [min]/[max] compare. *)

Definition jsstring : Type := list N.

Definition of_string (s : string) : jsstring :=
  map Ascii.N_of_ascii (String.list_ascii_of_string s).

(** ECMAScript [WhiteSpace] and [LineTerminator] code points, the characters
    that [String.prototype.trim] removes: TAB, LF, VT, FF, CR, SP, NBSP,
    U+1680, U+2000..U+200A, LS, PS, U+202F, U+205F, U+3000 and the BOM. *)
Definition isWhiteSpace (c : N) : bool :=
  ((9 <=? c) && (c <=? 13) || (c =? 32) || (c =? 160) || (c =? 5760)
   || (8192 <=? c) && (c <=? 8202) || (c =? 8232) || (c =? 8233)
   || (c =? 8239) || (c =? 8287) || (c =? 12288) || (c =? 65279))%N.

Fixpoint trimStart (s : jsstring) : jsstring :=
  match s with
  | [] => []
  | c :: s' => if isWhiteSpace c then trimStart s' else s
  end.

Definition trimEnd (s : jsstring) : jsstring := rev (trimStart (rev s)).

Definition trim (s : jsstring) : jsstring := trimEnd (trimStart s).

(** [s === ""] *)
Definition isEmptyString (s : jsstring) : bool :=
  match s with [] => true | _ :: _ => false end.

(** ** Data model *)

(** The string-literal union ["generalEnquiry" | "supportRequest"]. *)
Inductive QueryType : Type := generalEnquiry | supportRequest.

Module FormDataProps.
Record t : Type := mk {
  queryType : option QueryType;   (* None is null *)
  firstName : jsstring;
  lastName : jsstring;
  email : jsstring;
  message : jsstring;
  consent : bool
}.

(** [{ ...fd, p: v }] for each property [p]. *)
Definition with_queryType (v : option QueryType) (fd : t) : t :=
  mk v (firstName fd) (lastName fd) (email fd) (message fd) (consent fd).
Definition with_firstName (v : jsstring) (fd : t) : t :=
  mk (queryType fd) v (lastName fd) (email fd) (message fd) (consent fd).
Definition with_lastName (v : jsstring) (fd : t) : t :=
  mk (queryType fd) (firstName fd) v (email fd) (message fd) (consent fd).
Definition with_email (v : jsstring) (fd : t) : t :=
  mk (queryType fd) (firstName fd) (lastName fd) v (message fd) (consent fd).
Definition with_message (v : jsstring) (fd : t) : t :=
  mk (queryType fd) (firstName fd) (lastName fd) (email fd) v (consent fd).
Definition with_consent (v : bool) (fd : t) : t :=
  mk (queryType fd) (firstName fd) (lastName fd) (email fd) (message fd) v.
End FormDataProps.

(** The value of an optional [string] property: a message, or [undefined]. *)
Inductive ErrVal : Type := undefined | Msg (m : string).

(** [FormErrorsProps]: an object whose own keys are a subset of the six field
    names.  A key that is present may hold [undefined]. *)
Abbreviation FormErrorsProps := (gmap string ErrVal).

(** Property read [errors.k]: [undefined] when the key is absent. *)
Definition getProp (errors : FormErrorsProps) (k : string) : ErrVal :=
  default undefined (errors !! k).

(** [Object.keys(o)]; only its length is inspected by the program. *)
Definition Object_keys (o : FormErrorsProps) : list string :=
  (map_to_list o).*1.

(** ** The zod schemas

    Each schema is represented by the [success] flag of its [safeParse]. *)

Module z.
(** [z.enum([...]).safeParse(x)]: succeeds on a member of the enum, fails
    on [null]. *)
Definition enum (x : option QueryType) : bool :=
  match x with Some _ => true | None => false end.

(** [z.string().min(lo).max(hi).safeParse(s)] *)
Definition string_min_max (lo hi : nat) (s : jsstring) : bool :=
  (lo <=? length s)%nat && (length s <=? hi)%nat.

(** [z.literal(true).safeParse(b)] *)
Definition literal_true (b : bool) : bool := b.
End z.

Definition queryTypeSchema : option QueryType -> bool := z.enum.
Definition firstNameSchema : jsstring -> bool := z.string_min_max 2 50.
Definition lastNameSchema : jsstring -> bool := z.string_min_max 2 50.
Definition messageSchema : jsstring -> bool := z.string_min_max 10 500.
Definition consentSchema : bool -> bool := z.literal_true.

(** A coarse email syntax check, [local@domain] with a non-empty local part
    and a dot strictly inside the domain.  It serves as one concrete instance
    of the library's email check when the theorems below are exhibited at
    concrete inputs. *)
Fixpoint splitAt (c : N) (s : jsstring) : option (jsstring * jsstring) :=
  match s with
  | [] => None
  | x :: s' =>
      if (x =? c)%N then Some ([], s')
      else match splitAt c s' with
           | Some (l, r) => Some (x :: l, r)
           | None => None
           end
  end.

Definition coarseEmail (s : jsstring) : bool :=
  match splitAt 64 s with
  | Some (loc, dom) =>
      negb (isEmptyString loc)
      && negb (existsb (N.eqb 64) dom)
      && match splitAt 46 dom with
         | Some (d1, d2) => negb (isEmptyString d1) && negb (isEmptyString d2)
         | None => false
         end
  | None => false
  end.

(** ** React state and the effects of a handler *)

(** The argument of a state setter: a new value, or an updater applied to
    the latest state. *)
Inductive SetStateAction (A : Type) : Type :=
  | value (a : A)
  | updater (f : A -> A).
Arguments value {A} a.
Arguments updater {A} f.

Definition applyAction {A : Type} (act : SetStateAction A) (prev : A) : A :=
  match act with
  | value a => a
  | updater f => f prev
  end.

(** What a handler can ask of its environment: a call of one of the nine
    state setters, or [window.setTimeout(handler, timeout)].  The callback is
    given by the effects it performs when it runs. *)
#[warnings="-register-all"]
Inductive Effect : Type :=
  | setFirstName (a : SetStateAction jsstring)
  | setLastName (a : SetStateAction jsstring)
  | setEmail (a : SetStateAction jsstring)
  | setSelectedQuery (a : SetStateAction (option QueryType))
  | setConsent (a : SetStateAction bool)
  | setMessage (a : SetStateAction jsstring)
  | setErrors (a : SetStateAction FormErrorsProps)
  | setFormSubmitted (a : SetStateAction bool)
  | setShowPopup (a : SetStateAction bool)
  | setTimeout (handler : list Effect) (timeout : N).

(** The nine [useState] cells of [Home]. *)
Record State : Type := mkState {
  firstName : jsstring;
  lastName : jsstring;
  email : jsstring;
  selectedQuery : option QueryType;
  consent : bool;
  message : jsstring;
  errors : FormErrorsProps;
  formSubmitted : bool;
  showPopup : bool
}.

(** The values passed to [useState] on the first render. *)
Definition initialState : State :=
  {| firstName := []; lastName := []; email := []; selectedQuery := None;
     consent := false; message := []; errors := ∅;
     formSubmitted := false; showPopup := false |}.

(** ** Objects and the handler monad

    Object literals live in a store.  A handler runs against a machine made
    of the store and the log of setter and timer calls issued so far; a
    computation fails when it dereferences a location that holds no object
    of the expected shape. *)

Definition loc : Type := positive.

Inductive Obj : Type :=
  | FormDataObj (fd : FormDataProps.t)
  | ErrorsObj (e : FormErrorsProps).

Record Machine : Type := mkMachine {
  heap : gmap loc Obj;
  pending : list Effect
}.

Definition JS (A : Type) : Type := Machine -> option (A * Machine).

Definition ret {A : Type} (a : A) : JS A := fun m => Some (a, m).

Definition bind {A B : Type} (c : JS A) (k : A -> JS B) : JS B :=
  fun m => match c m with
           | Some (a, m') => k a m'
           | None => None
           end.

Declare Scope js_scope.
Delimit Scope js_scope with js.
Notation "x <- c ;; k" := (bind c (fun x => k))
  (at level 100, c at next level, k at level 200, right associativity) : js_scope.
Notation "c ;; k" := (bind c (fun _ => k))
  (at level 100, k at level 200, right associativity) : js_scope.
Open Scope js_scope.

(** An object literal: a new object at an unused location. *)
Definition alloc (o : Obj) : JS loc :=
  fun m => let l := fresh (dom (heap m)) in
           Some (l, {| heap := <[l := o]> (heap m); pending := pending m |}).

(** [formData.p] *)
Definition readForm {A : Type} (formData : loc) (p : FormDataProps.t -> A) : JS A :=
  fun m => match heap m !! formData with
           | Some (FormDataObj fd) => Some (p fd, m)
           | _ => None
           end.

(** [errors.k] *)
Definition readError (errors : loc) (k : string) : JS ErrVal :=
  fun m => match heap m !! errors with
           | Some (ErrorsObj e) => Some (getProp e k, m)
           | _ => None
           end.

(** [errors.k = msg] *)
Definition writeError (errors : loc) (k : string) (msg : string) : JS unit :=
  fun m => match heap m !! errors with
           | Some (ErrorsObj e) =>
               Some (tt, {| heap := <[errors := ErrorsObj (<[k := Msg msg]> e)]> (heap m);
                            pending := pending m |})
           | _ => None
           end.

(** [Object.keys(errors).length] *)
Definition keysLength (errors : loc) : JS nat :=
  fun m => match heap m !! errors with
           | Some (ErrorsObj e) => Some (length (Object_keys e), m)
           | _ => None
           end.

(** The whole content of an errors object, as handed to [setErrors]. *)
Definition readErrors (errors : loc) : JS FormErrorsProps :=
  fun m => match heap m !! errors with
           | Some (ErrorsObj e) => Some (e, m)
           | _ => None
           end.

(** [{ ...src, p: v }] for a form-data object, [upd] overriding [p]. *)
Definition spread (src : loc) (upd : FormDataProps.t -> FormDataProps.t) : JS loc :=
  fd <- readForm src id ;; alloc (FormDataObj (upd fd)).

(** A call of a state setter or of [window.setTimeout]. *)
Definition call (e : Effect) : JS unit :=
  fun m => Some (tt, {| heap := heap m; pending := pending m ++ [e] |}).

Section ContactForm.

(** [z.string().email()]: the email regular expression belongs to the zod
    library, so the success flag of [emailSchema.safeParse] is a parameter. *)
Variable emailSchema : jsstring -> bool.

(** ** [validateForm] *)

Definition validateForm (formData : FormDataProps.t) : FormErrorsProps :=
  let errors : FormErrorsProps := ∅ in
  let errors :=
    if negb (queryTypeSchema (FormDataProps.queryType formData))
    then <["queryType" := Msg "Please select a query type"]> errors
    else errors in
  let errors :=
    if negb (firstNameSchema (FormDataProps.firstName formData))
    then <["firstName" := Msg "First name must be between 2 and 50 characters"]> errors
    else if isEmptyString (trim (FormDataProps.firstName formData))
    then <["firstName" := Msg "This field is required"]> errors
    else errors in
  let errors :=
    if negb (lastNameSchema (FormDataProps.lastName formData))
    then <["lastName" := Msg "Last name must be between 2 and 50 characters"]> errors
    else if isEmptyString (trim (FormDataProps.lastName formData))
    then <["lastName" := Msg "This field is required"]> errors
    else errors in
  let errors :=
    if negb (emailSchema (FormDataProps.email formData))
    then <["email" := Msg "Please enter a valid email address"]> errors
    else errors in
  let errors :=
    if negb (messageSchema (FormDataProps.message formData))
    then <["message" := Msg "Message must be between 10 and 500 characters."]> errors
    else if isEmptyString (trim (FormDataProps.message formData))
    then <["message" := Msg "This field is required"]> errors
    else errors in
  let errors :=
    if negb (consentSchema (FormDataProps.consent formData))
    then <["consent" := Msg "To submit this form, please consent to being contacted"]> errors
    else errors in
  errors.

(** [validateForm] once more, now with its objects in the store: [formData]
    is a reference, [errors] a new object written property by property. *)
Definition validateFormJS (formData : loc) : JS loc :=
  errors <- alloc (ErrorsObj ∅) ;;
  queryType <- readForm formData FormDataProps.queryType ;;
  (if negb (queryTypeSchema queryType)
   then writeError errors "queryType" "Please select a query type"
   else ret tt) ;;
  firstName <- readForm formData FormDataProps.firstName ;;
  (if negb (firstNameSchema firstName)
   then writeError errors "firstName" "First name must be between 2 and 50 characters"
   else
     firstName <- readForm formData FormDataProps.firstName ;;
     if isEmptyString (trim firstName)
     then writeError errors "firstName" "This field is required"
     else ret tt) ;;
  lastName <- readForm formData FormDataProps.lastName ;;
  (if negb (lastNameSchema lastName)
   then writeError errors "lastName" "Last name must be between 2 and 50 characters"
   else
     lastName <- readForm formData FormDataProps.lastName ;;
     if isEmptyString (trim lastName)
     then writeError errors "lastName" "This field is required"
     else ret tt) ;;
  email <- readForm formData FormDataProps.email ;;
  (if negb (emailSchema email)
   then writeError errors "email" "Please enter a valid email address"
   else ret tt) ;;
  message <- readForm formData FormDataProps.message ;;
  (if negb (messageSchema message)
   then writeError errors "message" "Message must be between 10 and 500 characters."
   else
     message <- readForm formData FormDataProps.message ;;
     if isEmptyString (trim message)
     then writeError errors "message" "This field is required"
     else ret tt) ;;
  consent <- readForm formData FormDataProps.consent ;;
  (if negb (consentSchema consent)
   then writeError errors "consent" "To submit this form, please consent to being contacted"
   else ret tt) ;;
  ret errors.

(** ** The handlers

    A handler closes over the state [s] of the render that installed it:
    it reads [s], and what it changes it changes through setter calls that
    take effect once the handler has returned. *)

(** The FormValues snapshot of a render. *)
Definition formValues (s : State) : FormDataProps.t :=
  {| FormDataProps.queryType := selectedQuery s;
     FormDataProps.firstName := firstName s;
     FormDataProps.lastName := lastName s;
     FormDataProps.email := email s;
     FormDataProps.message := message s;
     FormDataProps.consent := consent s |}.

Definition getFormData (s : State) : JS loc :=
  alloc (FormDataObj (formValues s)).

(** [event.preventDefault()] does not touch the component.  [setErrors] is
    handed the object [validationErrors]; nothing writes to that object once
    [validateForm] has returned, so the state keeps its content. *)
Definition handleFormSubmit (s : State) : JS unit :=
  call (setFormSubmitted (value true)) ;;
  formData <- getFormData s ;;
  validationErrors <- validateFormJS formData ;;
  content <- readErrors validationErrors ;;
  call (setErrors (value content)) ;;
  n <- keysLength validationErrors ;;
  if (n =? 0)%nat
  then
    call (setShowPopup (value true)) ;;
    call (setTimeout [setShowPopup (value false)] 5000)
  else ret tt.

(** The common tail of the seven edit handlers: validate the snapshot with
    the edited property overridden and patch the one key [k].  The updater
    reads [newErrors.k]; the object is not written after [validateForm]
    returns, so the read is done here. *)
Definition revalidate (s : State) (k : string)
    (override : FormDataProps.t -> FormDataProps.t) : JS unit :=
  if formSubmitted s
  then
    current <- getFormData s ;;
    formData <- spread current override ;;
    newErrors <- validateFormJS formData ;;
    v <- readError newErrors k ;;
    call (setErrors (updater (fun prevErrors => <[k := v]> prevErrors)))
  else ret tt.

Definition onChangeFirstName (v : jsstring) (s : State) : JS unit :=
  call (setFirstName (value v)) ;;
  revalidate s "firstName" (FormDataProps.with_firstName v).

Definition onChangeLastName (v : jsstring) (s : State) : JS unit :=
  call (setLastName (value v)) ;;
  revalidate s "lastName" (FormDataProps.with_lastName v).

Definition onChangeEmail (v : jsstring) (s : State) : JS unit :=
  call (setEmail (value v)) ;;
  revalidate s "email" (FormDataProps.with_email v).

Definition onClickGeneralEnquiry (s : State) : JS unit :=
  call (setSelectedQuery (value (Some generalEnquiry))) ;;
  revalidate s "queryType" (FormDataProps.with_queryType (Some generalEnquiry)).

Definition onClickSupportRequest (s : State) : JS unit :=
  call (setSelectedQuery (value (Some supportRequest))) ;;
  revalidate s "queryType" (FormDataProps.with_queryType (Some supportRequest)).

Definition onChangeMessage (v : jsstring) (s : State) : JS unit :=
  call (setMessage (value v)) ;;
  revalidate s "message" (FormDataProps.with_message v).

Definition onClickConsent (s : State) : JS unit :=
  call (setConsent (updater negb)) ;;
  revalidate s "consent" (FormDataProps.with_consent (negb (consent s))).

(** ** The event loop *)

Record Timer : Type := mkTimer {
  deadline : N;                (* in ms *)
  callback : list Effect
}.

Record World : Type := mkWorld {
  comp : State;
  store : gmap loc Obj;
  timers : list Timer;         (* pending timeouts, oldest first *)
  clock : N                    (* in ms *)
}.

Definition initialWorld : World :=
  {| comp := initialState; store := ∅; timers := []; clock := 0 |}.

(** A setter call applied to the state. *)
Definition reduce (s : State) (e : Effect) : State :=
  match e with
  | setFirstName a =>
      mkState (applyAction a (firstName s)) (lastName s) (email s) (selectedQuery s)
        (consent s) (message s) (errors s) (formSubmitted s) (showPopup s)
  | setLastName a =>
      mkState (firstName s) (applyAction a (lastName s)) (email s) (selectedQuery s)
        (consent s) (message s) (errors s) (formSubmitted s) (showPopup s)
  | setEmail a =>
      mkState (firstName s) (lastName s) (applyAction a (email s)) (selectedQuery s)
        (consent s) (message s) (errors s) (formSubmitted s) (showPopup s)
  | setSelectedQuery a =>
      mkState (firstName s) (lastName s) (email s) (applyAction a (selectedQuery s))
        (consent s) (message s) (errors s) (formSubmitted s) (showPopup s)
  | setConsent a =>
      mkState (firstName s) (lastName s) (email s) (selectedQuery s)
        (applyAction a (consent s)) (message s) (errors s) (formSubmitted s) (showPopup s)
  | setMessage a =>
      mkState (firstName s) (lastName s) (email s) (selectedQuery s)
        (consent s) (applyAction a (message s)) (errors s) (formSubmitted s) (showPopup s)
  | setErrors a =>
      mkState (firstName s) (lastName s) (email s) (selectedQuery s)
        (consent s) (message s) (applyAction a (errors s)) (formSubmitted s) (showPopup s)
  | setFormSubmitted a =>
      mkState (firstName s) (lastName s) (email s) (selectedQuery s)
        (consent s) (message s) (errors s) (applyAction a (formSubmitted s)) (showPopup s)
  | setShowPopup a =>
      mkState (firstName s) (lastName s) (email s) (selectedQuery s)
        (consent s) (message s) (errors s) (formSubmitted s) (applyAction a (showPopup s))
  | setTimeout _ _ => s
  end.

(** One logged effect taken up by the environment: setter calls go to the
    state in call order, [setTimeout] adds a timer due [timeout] ms from now. *)
Definition applyEffect (w : World) (e : Effect) : World :=
  match e with
  | setTimeout handler timeout =>
      {| comp := comp w; store := store w;
         timers := timers w ++ [mkTimer (clock w + timeout) handler];
         clock := clock w |}
  | _ =>
      {| comp := reduce (comp w) e; store := store w;
         timers := timers w; clock := clock w |}
  end.

Definition flush (w : World) (effects : list Effect) : World :=
  foldl applyEffect w effects.

Inductive UIEvent : Type :=
  | submit
  | changeFirstName (v : jsstring)
  | changeLastName (v : jsstring)
  | changeEmail (v : jsstring)
  | clickGeneralEnquiry
  | clickSupportRequest
  | changeMessage (v : jsstring)
  | clickConsent.

Inductive Event : Type :=
  | ui (u : UIEvent)
  | timerFires (i : nat)       (* the i-th pending timeout runs *)
  | elapse (d : N).            (* d ms pass *)

Definition handlerOf (u : UIEvent) : State -> JS unit :=
  match u with
  | submit => handleFormSubmit
  | changeFirstName v => onChangeFirstName v
  | changeLastName v => onChangeLastName v
  | changeEmail v => onChangeEmail v
  | clickGeneralEnquiry => onClickGeneralEnquiry
  | clickSupportRequest => onClickSupportRequest
  | changeMessage v => onChangeMessage v
  | clickConsent => onClickConsent
  end.

(** One turn of the event loop.  A UI event runs its handler to completion
    against the current render and then takes up the logged effects; a
    timeout may run only once its delay has passed. *)
Definition step (w : World) (ev : Event) : option World :=
  match ev with
  | ui u =>
      match handlerOf u (comp w) {| heap := store w; pending := [] |} with
      | Some (_, m) =>
          Some (flush {| comp := comp w; store := heap m;
                         timers := timers w; clock := clock w |} (pending m))
      | None => None
      end
  | timerFires i =>
      match timers w !! i with
      | Some t =>
          if (deadline t <=? clock w)%N
          then Some (flush {| comp := comp w; store := store w;
                              timers := delete i (timers w); clock := clock w |}
                       (callback t))
          else None
      | None => None
      end
  | elapse d =>
      Some {| comp := comp w; store := store w; timers := timers w;
              clock := (clock w + d)%N |}
  end.

Fixpoint run (w : World) (evs : list Event) : option World :=
  match evs with
  | [] => Some w
  | ev :: evs' =>
      match step w ev with
      | Some w' => run w' evs'
      | None => None
      end
  end.

Definition reachable (w : World) : Prop :=
  exists evs, run initialWorld evs = Some w.

(** ** Fields, their values and their rules *)

Inductive Field : Type :=
  | QueryTypeF | FirstNameF | LastNameF | EmailF | MessageF | ConsentF.

Definition fieldName (f : Field) : string :=
  match f with
  | QueryTypeF => "queryType"
  | FirstNameF => "firstName"
  | LastNameF => "lastName"
  | EmailF => "email"
  | MessageF => "message"
  | ConsentF => "consent"
  end.

Inductive FieldValue : Type :=
  | QueryV (q : option QueryType)
  | TextV (t : jsstring)
  | BoolV (b : bool).

(** The value a snapshot holds for a field. *)
Definition fieldValue (f : Field) (fd : FormDataProps.t) : FieldValue :=
  match f with
  | QueryTypeF => QueryV (FormDataProps.queryType fd)
  | FirstNameF => TextV (FormDataProps.firstName fd)
  | LastNameF => TextV (FormDataProps.lastName fd)
  | EmailF => TextV (FormDataProps.email fd)
  | MessageF => TextV (FormDataProps.message fd)
  | ConsentF => BoolV (FormDataProps.consent fd)
  end.

Definition lengthWithin (lo hi : nat) (t : jsstring) : bool :=
  (lo <=? length t)%nat && (length t <=? hi)%nat.

Definition whitespaceOnly (t : jsstring) : bool := forallb isWhiteSpace t.

(** The field rules as the specification words them (its section 4.1): the
    query type is one of the two choices; a name has length in [2,50] and
    its trimmed value is not empty; the email matches the email syntax; the
    message has length in [10,500] and its trimmed value is not empty;
    consent is [true].  A rule reads the field's own value only. *)
Definition satisfiesRule (f : Field) (v : FieldValue) : bool :=
  match f, v with
  | QueryTypeF, QueryV (Some generalEnquiry) => true
  | QueryTypeF, QueryV (Some supportRequest) => true
  | FirstNameF, TextV t => lengthWithin 2 50 t && negb (isEmptyString (trim t))
  | LastNameF, TextV t => lengthWithin 2 50 t && negb (isEmptyString (trim t))
  | EmailF, TextV t => emailSchema t
  | MessageF, TextV t => lengthWithin 10 500 t && negb (isEmptyString (trim t))
  | ConsentF, BoolV b => bool_decide (b = true)
  | _, _ => false
  end.

(** What an edit event edits: the field and its new value. *)
Definition editOf (u : UIEvent) (s : State) : option (Field * FieldValue) :=
  match u with
  | submit => None
  | changeFirstName v => Some (FirstNameF, TextV v)
  | changeLastName v => Some (LastNameF, TextV v)
  | changeEmail v => Some (EmailF, TextV v)
  | clickGeneralEnquiry => Some (QueryTypeF, QueryV (Some generalEnquiry))
  | clickSupportRequest => Some (QueryTypeF, QueryV (Some supportRequest))
  | changeMessage v => Some (MessageF, TextV v)
  | clickConsent => Some (ConsentF, BoolV (negb (consent s)))
  end.

(** The snapshot [fd] with field [f] replaced by [v]. *)
Definition withField (f : Field) (v : FieldValue) (fd : FormDataProps.t)
    : FormDataProps.t :=
  match f, v with
  | QueryTypeF, QueryV q => FormDataProps.with_queryType q fd
  | FirstNameF, TextV t => FormDataProps.with_firstName t fd
  | LastNameF, TextV t => FormDataProps.with_lastName t fd
  | EmailF, TextV t => FormDataProps.with_email t fd
  | MessageF, TextV t => FormDataProps.with_message t fd
  | ConsentF, BoolV b => FormDataProps.with_consent b fd
  | _, _ => fd
  end.

(** Whether an event carries a timeout callback. *)
Definition isTimerFires (ev : Event) : bool :=
  match ev with timerFires _ => true | _ => false end.

(** The one callback the program ever hands to [window.setTimeout]. *)
Definition dismiss : list Effect := [setShowPopup (value false)].

(** The machine while the errors object at [l'] is being filled in. *)
Definition filling (h : gmap loc Obj) (q : list Effect) (l' : loc)
    (e : FormErrorsProps) : Machine :=
  {| heap := <[l' := ErrorsObj e]> h; pending := q |}.

(** Every pending timeout carries the dismiss callback. *)
Definition timersDismiss (w : World) : Prop :=
  Forall (fun t => callback t = dismiss) (timers w).

(** Sample inputs: a snapshot that satisfies every rule, the edits that
    enter it into an untouched form, and a first name of ten spaces. *)
Definition janeDoe : FormDataProps.t :=
  {| FormDataProps.queryType := Some generalEnquiry;
     FormDataProps.firstName := of_string "Jane";
     FormDataProps.lastName := of_string "Doe";
     FormDataProps.email := of_string "jane@example.com";
     FormDataProps.message := of_string "Hello, this is a test message.";
     FormDataProps.consent := true |}.

Definition enterJaneDoe : list Event :=
  [ ui clickGeneralEnquiry;
    ui (changeFirstName (of_string "Jane"));
    ui (changeLastName (of_string "Doe"));
    ui (changeEmail (of_string "jane@example.com"));
    ui (changeMessage (of_string "Hello, this is a test message."));
    ui clickConsent ].

Definition tenSpaces : FormDataProps.t :=
  FormDataProps.with_firstName (of_string "          ") janeDoe.

(** Sample worlds: the form with Jane Doe's data entered and not yet
    submitted; the same 100 ms after its submit; the untouched form after a
    submit.  A submit leaves its two object literals in the store. *)
Definition janeDoeEntered : World :=
  {| comp := {| firstName := of_string "Jane"; lastName := of_string "Doe";
                email := of_string "jane@example.com";
                selectedQuery := Some generalEnquiry; consent := true;
                message := of_string "Hello, this is a test message.";
                errors := ∅; formSubmitted := false; showPopup := false |};
     store := ∅; timers := []; clock := 0 |}.

Definition janeDoeSubmitted : World :=
  {| comp := {| firstName := of_string "Jane"; lastName := of_string "Doe";
                email := of_string "jane@example.com";
                selectedQuery := Some generalEnquiry; consent := true;
                message := of_string "Hello, this is a test message.";
                errors := ∅; formSubmitted := true; showPopup := true |};
     store := <[2%positive := ErrorsObj ∅]> (<[1%positive := FormDataObj janeDoe]> ∅);
     timers := [mkTimer 5000 dismiss]; clock := 100 |}.

Definition emptySubmitted : World :=
  {| comp := {| firstName := []; lastName := []; email := [];
                selectedQuery := None; consent := false; message := [];
                errors := validateForm (formValues initialState);
                formSubmitted := true; showPopup := false |};
     store := <[2%positive := ErrorsObj (validateForm (formValues initialState))]>
                (<[1%positive := FormDataObj (formValues initialState)]> ∅);
     timers := []; clock := 0 |}.

(** The popup is up until time [D]: no pending timeout is due before [D],
    a timeout scheduled from now on is due at [D] or later, and the popup
    shows while the clock is before [D]. *)
Definition popupHeld (D : N) (w : World) : Prop :=
  timersDismiss w
  /\ Forall (fun t => (D <= deadline t)%N) (timers w)
  /\ (D <= clock w + 5000)%N
  /\ ((clock w < D)%N -> showPopup (comp w) = true).

(** Before the first submit there are no errors. *)
Definition pristineClean (w : World) : Prop :=
  timersDismiss w /\ (formSubmitted (comp w) = false -> errors (comp w) = ∅).

(** After the first submit [formSubmitted] is set. *)
Definition submittedOnce (w : World) : Prop :=
  timersDismiss w /\ formSubmitted (comp w) = true.

(** ** The rendered page *)

(** JavaScript truthiness of a [string | undefined] value. *)
Definition truthy (v : ErrVal) : bool :=
  match v with
  | undefined => false
  | Msg m => negb (bool_decide (m = ""))
  end.

(** [{errors.k && <p>{errors.k}</p>}]: the text of the paragraph under a
    field, when one is rendered. *)
Definition renderError (s : State) (k : string) : option string :=
  let v := getProp (errors s) k in
  if truthy v
  then match v with Msg m => Some m | undefined => None end
  else None.

(** After the first submit, reading [errors.k] gives what [validateForm]
    says of the current snapshot. *)
Definition errorsInSync (w : World) : Prop :=
  timersDismiss w
  /\ (formSubmitted (comp w) = true ->
      forall k : string,
        getProp (errors (comp w)) k
          = getProp (validateForm (formValues (comp w))) k).

(** Every key of [errors] is a field name. *)
Definition errorKeysAreFields (w : World) : Prop :=
  timersDismiss w
  /\ forall k : string, is_Some (errors (comp w) !! k) -> exists f, k = fieldName f.

(** A showing popup has a timer pending, and no timer is due later than
    5000 ms from now. *)
Definition popupHasTimer (w : World) : Prop :=
  timersDismiss w
  /\ Forall (fun t => (deadline t <= clock w + 5000)%N) (timers w)
  /\ (showPopup (comp w) = true -> timers w <> []).

(** Before the first submit nothing has been shown, scheduled or allocated. *)
Definition pristineQuiet (w : World) : Prop :=
  formSubmitted (comp w) = false ->
  showPopup (comp w) = false /\ timers w = [] /\ store w = ∅.

(** A computation that leaves every object it finds in the store as it is. *)
Definition keepsObjects {A : Type} (c : JS A) : Prop :=
  forall (m m' : Machine) (a : A), c m = Some (a, m') -> heap m ⊆ heap m'.

(** A query type is selected. *)
Definition querySelected (w : World) : Prop :=
  timersDismiss w /\ is_Some (selectedQuery (comp w)).

(** The message is no longer than the [textarea] lets it be. *)
Definition messageCapped (w : World) : Prop :=
  timersDismiss w /\ (length (message (comp w)) <= 500)%nat.

(** What a [textarea] with [maxLength={500}] delivers: no message value
    longer than 500 code units. *)
Definition withinCap (ev : Event) : Prop :=
  match ev with
  | ui (changeMessage v) => (length v <= 500)%nat
  | _ => True
  end.

(** ** Strings *)

Lemma trimStart_nil_iff (s : jsstring) :
  trimStart s = [] <-> forallb isWhiteSpace s = true.
Proof.
  induction s as [|c s IH]; simpl; [tauto|].
  destruct (isWhiteSpace c); simpl; [exact IH|].
  split; intros H; discriminate H.
Qed.

Lemma trimStart_head (s : jsstring) :
  match trimStart s with
  | [] => True
  | c :: _ => isWhiteSpace c = false
  end.
Proof.
  induction s as [|c s IH]; simpl; [exact I|].
  destruct (isWhiteSpace c) eqn:E; [exact IH|exact E].
Qed.

Lemma forallb_rev (p : N -> bool) (s : jsstring) :
  forallb p (rev s) = forallb p s.
Proof.
  induction s as [|c s IH]; simpl; [reflexivity|].
  rewrite forallb_app, IH. simpl. rewrite andb_true_r. apply andb_comm.
Qed.

Lemma rev_nil_inv (s : jsstring) : rev s = [] -> s = [].
Proof.
  intros H. apply (f_equal (@rev N)) in H. rewrite rev_involutive in H. exact H.
Qed.

(** [s.trim() === ""] holds exactly for the strings made of white space. *)
Lemma trim_empty_iff (s : jsstring) :
  isEmptyString (trim s) = true <-> whitespaceOnly s = true.
Proof.
  unfold whitespaceOnly.
  assert (Hn : forall t : jsstring, isEmptyString t = true <-> t = []).
  { intros [|? ?]; simpl; split; intros H; try reflexivity; discriminate H. }
  rewrite Hn. unfold trim, trimEnd. split.
  - intros H. apply rev_nil_inv in H.
    apply trimStart_nil_iff in H. rewrite forallb_rev in H.
    pose proof (trimStart_head s) as Hh.
    destruct (trimStart s) as [|c t] eqn:E.
    + apply trimStart_nil_iff. exact E.
    + simpl in H. rewrite Hh in H. discriminate H.
  - intros H. apply trimStart_nil_iff in H. rewrite H. reflexivity.
Qed.

Lemma lengthWithin_spec (lo hi : nat) (t : jsstring) :
  lengthWithin lo hi t = true <-> (lo <= length t <= hi)%nat.
Proof.
  unfold lengthWithin. rewrite andb_true_iff, !Nat.leb_le. tauto.
Qed.

(** ** [Object.keys] *)

Lemma keys_length_zero (e : FormErrorsProps) :
  (length (Object_keys e) =? 0)%nat = bool_decide (e = ∅).
Proof.
  unfold Object_keys. rewrite length_fmap.
  destruct (decide (e = ∅)) as [->|Hne].
  - rewrite map_to_list_empty. reflexivity.
  - rewrite bool_decide_eq_false_2 by exact Hne.
    apply Nat.eqb_neq. intros H. apply Hne.
    apply map_to_list_empty_iff. apply nil_length_inv. exact H.
Qed.

(** ** Lookups in the result of [validateForm] *)

Lemma lookup_guard (b : bool) (k' : string) (v : ErrVal)
    (m : gmap string ErrVal) (k : string) :
  (if b then <[k' := v]> m else m) !! k =
    if decide (k = k') then (if b then Some v else m !! k) else m !! k.
Proof.
  destruct b; [|destruct (decide (k = k')); reflexivity].
  destruct (decide (k = k')) as [->|Hne].
  - apply lookup_insert_eq.
  - apply lookup_insert_ne. congruence.
Qed.

Lemma lookup_guard2 (b b' : bool) (k' : string) (v v' : ErrVal)
    (m : gmap string ErrVal) (k : string) :
  (if b then <[k' := v]> m else if b' then <[k' := v']> m else m) !! k =
    if decide (k = k')
    then (if b then Some v else if b' then Some v' else m !! k)
    else m !! k.
Proof.
  destruct b; [|apply lookup_guard].
  destruct (decide (k = k')) as [->|Hne].
  - apply lookup_insert_eq.
  - apply lookup_insert_ne. congruence.
Qed.

(** The entry of every key, read off the six blocks of [validateForm]. *)
Lemma validateForm_lookup (fd : FormDataProps.t) (k : string) :
  validateForm fd !! k =
    if decide (k = "queryType") then
      if negb (queryTypeSchema (FormDataProps.queryType fd))
      then Some (Msg "Please select a query type") else None
    else if decide (k = "firstName") then
      if negb (firstNameSchema (FormDataProps.firstName fd))
      then Some (Msg "First name must be between 2 and 50 characters")
      else if isEmptyString (trim (FormDataProps.firstName fd))
      then Some (Msg "This field is required") else None
    else if decide (k = "lastName") then
      if negb (lastNameSchema (FormDataProps.lastName fd))
      then Some (Msg "Last name must be between 2 and 50 characters")
      else if isEmptyString (trim (FormDataProps.lastName fd))
      then Some (Msg "This field is required") else None
    else if decide (k = "email") then
      if negb (emailSchema (FormDataProps.email fd))
      then Some (Msg "Please enter a valid email address") else None
    else if decide (k = "message") then
      if negb (messageSchema (FormDataProps.message fd))
      then Some (Msg "Message must be between 10 and 500 characters.")
      else if isEmptyString (trim (FormDataProps.message fd))
      then Some (Msg "This field is required") else None
    else if decide (k = "consent") then
      if negb (consentSchema (FormDataProps.consent fd))
      then Some (Msg "To submit this form, please consent to being contacted")
      else None
    else None.
Proof.
  unfold validateForm. cbv zeta.
  repeat (rewrite lookup_guard || rewrite lookup_guard2).
  rewrite lookup_empty.
  repeat (case_decide; [subst k; reflexivity|]).
  reflexivity.
Qed.

Ltac solve_field_entry :=
  rewrite validateForm_lookup;
  repeat (case_decide; [discriminate|]);
  case_decide; [reflexivity|congruence].

Lemma validateForm_queryType (fd : FormDataProps.t) :
  validateForm fd !! "queryType" =
    if negb (queryTypeSchema (FormDataProps.queryType fd))
    then Some (Msg "Please select a query type") else None.
Proof. solve_field_entry. Qed.

Lemma validateForm_firstName (fd : FormDataProps.t) :
  validateForm fd !! "firstName" =
    if negb (firstNameSchema (FormDataProps.firstName fd))
    then Some (Msg "First name must be between 2 and 50 characters")
    else if isEmptyString (trim (FormDataProps.firstName fd))
    then Some (Msg "This field is required") else None.
Proof. solve_field_entry. Qed.

Lemma validateForm_lastName (fd : FormDataProps.t) :
  validateForm fd !! "lastName" =
    if negb (lastNameSchema (FormDataProps.lastName fd))
    then Some (Msg "Last name must be between 2 and 50 characters")
    else if isEmptyString (trim (FormDataProps.lastName fd))
    then Some (Msg "This field is required") else None.
Proof. solve_field_entry. Qed.

Lemma validateForm_email (fd : FormDataProps.t) :
  validateForm fd !! "email" =
    if negb (emailSchema (FormDataProps.email fd))
    then Some (Msg "Please enter a valid email address") else None.
Proof. solve_field_entry. Qed.

Lemma validateForm_message (fd : FormDataProps.t) :
  validateForm fd !! "message" =
    if negb (messageSchema (FormDataProps.message fd))
    then Some (Msg "Message must be between 10 and 500 characters.")
    else if isEmptyString (trim (FormDataProps.message fd))
    then Some (Msg "This field is required") else None.
Proof. solve_field_entry. Qed.

Lemma validateForm_consent (fd : FormDataProps.t) :
  validateForm fd !! "consent" =
    if negb (consentSchema (FormDataProps.consent fd))
    then Some (Msg "To submit this form, please consent to being contacted")
    else None.
Proof. solve_field_entry. Qed.

(** Only the six field names can be keys of the result. *)
Lemma validateForm_keys (fd : FormDataProps.t) (k : string) :
  is_Some (validateForm fd !! k) -> exists f, k = fieldName f.
Proof.
  rewrite validateForm_lookup.
  repeat case_decide; subst; intros Hk;
    [ exists QueryTypeF | exists FirstNameF | exists LastNameF
    | exists EmailF | exists MessageF | exists ConsentF
    | destruct Hk as [? Hk]; discriminate Hk ]; reflexivity.
Qed.

(** A key is present exactly when the field breaks its rule. *)
Lemma key_present_iff (fd : FormDataProps.t) (f : Field) :
  is_Some (validateForm fd !! fieldName f) <->
  satisfiesRule f (fieldValue f fd) = false.
Proof.
  destruct f; simpl.
  - rewrite validateForm_queryType.
    destruct (FormDataProps.queryType fd) as [[]|]; simpl;
      split; intros H; try discriminate H; eauto; destruct H as [? H]; discriminate H.
  - rewrite validateForm_firstName.
    unfold firstNameSchema, z.string_min_max, lengthWithin.
    destruct (_ && _), (isEmptyString _); simpl;
      split; intros H; try discriminate H; eauto; destruct H as [? H]; discriminate H.
  - rewrite validateForm_lastName.
    unfold lastNameSchema, z.string_min_max, lengthWithin.
    destruct (_ && _), (isEmptyString _); simpl;
      split; intros H; try discriminate H; eauto; destruct H as [? H]; discriminate H.
  - rewrite validateForm_email.
    destruct (emailSchema _); simpl;
      split; intros H; try discriminate H; eauto; destruct H as [? H]; discriminate H.
  - rewrite validateForm_message.
    unfold messageSchema, z.string_min_max, lengthWithin.
    destruct (_ && _), (isEmptyString _); simpl;
      split; intros H; try discriminate H; eauto; destruct H as [? H]; discriminate H.
  - rewrite validateForm_consent.
    destruct (FormDataProps.consent fd); simpl;
      split; intros H; try discriminate H; eauto; destruct H as [? H]; discriminate H.
Qed.

(** The entry of a field is a function of that field's own value. *)
Lemma validateForm_field_local (f : Field) (fd1 fd2 : FormDataProps.t) :
  fieldValue f fd1 = fieldValue f fd2 ->
  validateForm fd1 !! fieldName f = validateForm fd2 !! fieldName f.
Proof.
  destruct f; simpl; intros H; injection H as H.
  - rewrite !validateForm_queryType, H. reflexivity.
  - rewrite !validateForm_firstName, H. reflexivity.
  - rewrite !validateForm_lastName, H. reflexivity.
  - rewrite !validateForm_email, H. reflexivity.
  - rewrite !validateForm_message, H. reflexivity.
  - rewrite !validateForm_consent, H. reflexivity.
Qed.

Lemma fieldValue_withField_eq (f : Field) (v : FieldValue) (fd : FormDataProps.t)
    (u : UIEvent) (s : State) :
  editOf u s = Some (f, v) -> fieldValue f (withField f v fd) = v.
Proof. destruct u; intros H; cbn in H; simplify_eq; reflexivity. Qed.

Lemma fieldValue_withField_ne (f f' : Field) (v : FieldValue) (fd : FormDataProps.t) :
  f' <> f -> fieldValue f' (withField f v fd) = fieldValue f' fd.
Proof. intros Hne. destruct f, v, f'; try reflexivity; congruence. Qed.

Lemma fieldName_inj (f f' : Field) : fieldName f = fieldName f' -> f = f'.
Proof. destruct f, f'; intros H; try reflexivity; discriminate H. Qed.

(** ** Running the handler monad *)

Lemma bind_run {A B : Type} (c : JS A) (k : A -> JS B) (m m' : Machine) (a : A) :
  c m = Some (a, m') -> bind c k m = k a m'.
Proof. intros H. unfold bind. rewrite H. reflexivity. Qed.

Lemma fresh_loc_unused (h : gmap loc Obj) : h !! fresh (dom h) = None.
Proof. apply not_elem_of_dom. apply is_fresh. Qed.

Lemma readForm_run {A : Type} (p : FormDataProps.t -> A) (m : Machine)
    (l : loc) (fd : FormDataProps.t) :
  heap m !! l = Some (FormDataObj fd) -> readForm l p m = Some (p fd, m).
Proof. intros H. unfold readForm. rewrite H. reflexivity. Qed.

Section ErrorsUnderConstruction.

(** While [validateForm] runs, the rest of the store, [h], holds the form
    data at [l] and nothing at [l']. *)
Variables (h : gmap loc Obj) (q : list Effect) (l l' : loc) (fd : FormDataProps.t).
Hypothesis Hl : h !! l = Some (FormDataObj fd).
Hypothesis Hl' : h !! l' = None.

Local Abbreviation fill := (filling h q l').

Lemma filling_readForm {A : Type} (p : FormDataProps.t -> A) (e : FormErrorsProps) :
  readForm l p (fill e) = Some (p fd, fill e).
Proof.
  apply readForm_run. simpl. rewrite lookup_insert_ne; [exact Hl|].
  intros ->. rewrite Hl in Hl'. discriminate Hl'.
Qed.

Lemma filling_writeError (k msg : string) (e : FormErrorsProps) :
  writeError l' k msg (fill e) = Some (tt, fill (<[k := Msg msg]> e)).
Proof.
  unfold writeError, filling. simpl. rewrite lookup_insert_eq.
  rewrite insert_insert_eq. reflexivity.
Qed.

Lemma filling_guard (b : bool) (k msg : string) (e : FormErrorsProps) :
  (if b then writeError l' k msg else ret tt) (fill e) =
    Some (tt, fill (if b then <[k := Msg msg]> e else e)).
Proof. destruct b; [apply filling_writeError|reflexivity]. Qed.

Lemma filling_guard2 (b : bool) (p : FormDataProps.t -> jsstring)
    (k msg msg' : string) (e : FormErrorsProps) :
  (if b then writeError l' k msg
   else x <- readForm l p ;;
        if isEmptyString (trim x) then writeError l' k msg' else ret tt)
    (fill e) =
    Some (tt, fill (if b then <[k := Msg msg]> e
                       else if isEmptyString (trim (p fd))
                       then <[k := Msg msg']> e else e)).
Proof.
  destruct b; [apply filling_writeError|].
  rewrite (bind_run _ _ _ _ _ (filling_readForm p e)).
  apply filling_guard.
Qed.

Lemma filling_validateForm_body :
  (queryType <- readForm l FormDataProps.queryType ;;
   (if negb (queryTypeSchema queryType)
    then writeError l' "queryType" "Please select a query type"
    else ret tt) ;;
   firstName <- readForm l FormDataProps.firstName ;;
   (if negb (firstNameSchema firstName)
    then writeError l' "firstName" "First name must be between 2 and 50 characters"
    else
      firstName <- readForm l FormDataProps.firstName ;;
      if isEmptyString (trim firstName)
      then writeError l' "firstName" "This field is required"
      else ret tt) ;;
   lastName <- readForm l FormDataProps.lastName ;;
   (if negb (lastNameSchema lastName)
    then writeError l' "lastName" "Last name must be between 2 and 50 characters"
    else
      lastName <- readForm l FormDataProps.lastName ;;
      if isEmptyString (trim lastName)
      then writeError l' "lastName" "This field is required"
      else ret tt) ;;
   email <- readForm l FormDataProps.email ;;
   (if negb (emailSchema email)
    then writeError l' "email" "Please enter a valid email address"
    else ret tt) ;;
   message <- readForm l FormDataProps.message ;;
   (if negb (messageSchema message)
    then writeError l' "message" "Message must be between 10 and 500 characters."
    else
      message <- readForm l FormDataProps.message ;;
      if isEmptyString (trim message)
      then writeError l' "message" "This field is required"
      else ret tt) ;;
   consent <- readForm l FormDataProps.consent ;;
   (if negb (consentSchema consent)
    then writeError l' "consent" "To submit this form, please consent to being contacted"
    else ret tt) ;;
   ret l') (fill ∅) = Some (l', fill (validateForm fd)).
Proof.
  repeat first
    [ rewrite (bind_run _ _ _ _ _ (filling_readForm _ _))
    | rewrite (bind_run _ _ _ _ _ (filling_guard _ _ _ _))
    | rewrite (bind_run _ _ _ _ _ (filling_guard2 _ _ _ _ _ _)) ].
  reflexivity.
Qed.

End ErrorsUnderConstruction.

(** [validateFormJS] returns, its result is a new object holding
    [validateForm fd], and nothing else in the machine has changed. *)
Lemma validateFormJS_run (m : Machine) (formData : loc) (fd : FormDataProps.t) :
  heap m !! formData = Some (FormDataObj fd) ->
  validateFormJS formData m =
    Some (fresh (dom (heap m)),
          {| heap := <[fresh (dom (heap m)) := ErrorsObj (validateForm fd)]> (heap m);
             pending := pending m |}).
Proof.
  intros H. unfold validateFormJS.
  assert (Ha : alloc (ErrorsObj ∅) m =
               Some (fresh (dom (heap m)),
                     filling (heap m) (pending m) (fresh (dom (heap m))) ∅))
    by reflexivity.
  rewrite (bind_run _ _ _ _ _ Ha).
  apply (filling_validateForm_body (heap m) (pending m) formData _ fd H).
  apply fresh_loc_unused.
Qed.

(** ** What the handlers log *)

Lemma handleFormSubmit_run (s : State) (h : gmap loc Obj) :
  exists h',
    handleFormSubmit s {| heap := h; pending := [] |} =
      Some (tt, {| heap := h';
                   pending :=
                     setFormSubmitted (value true)
                     :: setErrors (value (validateForm (formValues s)))
                     :: (if bool_decide (validateForm (formValues s) = ∅)
                         then [setShowPopup (value true); setTimeout dismiss 5000]
                         else []) |}).
Proof.
  unfold handleFormSubmit, getFormData.
  unfold bind at 1 2. unfold call at 1, alloc. cbn [heap pending app].
  rewrite (bind_run _ _ _ _ _
             (validateFormJS_run _ _ (formValues s) (lookup_insert_eq _ _ _))).
  cbn [heap pending].
  unfold bind, readErrors, keysLength, call. cbn [heap pending app].
  rewrite lookup_insert_eq. cbn [heap pending app].
  rewrite lookup_insert_eq. rewrite keys_length_zero.
  destruct (bool_decide (validateForm (formValues s) = ∅)); eexists; reflexivity.
Qed.

Lemma revalidate_run (s : State) (k : string)
    (override : FormDataProps.t -> FormDataProps.t)
    (h : gmap loc Obj) (q : list Effect) :
  formSubmitted s = true ->
  exists h',
    revalidate s k override {| heap := h; pending := q |} =
      Some (tt, {| heap := h';
                   pending :=
                     q ++ [setErrors (updater (fun prevErrors =>
                             <[k := getProp (validateForm (override (formValues s))) k]>
                               prevErrors))] |}).
Proof.
  intros Hs. unfold revalidate, getFormData, spread. rewrite Hs.
  unfold bind at 1 2 3. unfold alloc, readForm. cbn [heap pending].
  rewrite lookup_insert_eq. cbn [heap pending id].
  rewrite (bind_run _ _ _ _ _
             (validateFormJS_run _ _ (override (formValues s)) (lookup_insert_eq _ _ _))).
  cbn [heap pending].
  unfold bind, readError, call. cbn [heap pending].
  rewrite lookup_insert_eq. eexists; reflexivity.
Qed.

Lemma revalidate_skip (s : State) (k : string)
    (override : FormDataProps.t -> FormDataProps.t) (m : Machine) :
  formSubmitted s = false -> revalidate s k override m = Some (tt, m).
Proof. intros Hs. unfold revalidate. rewrite Hs. reflexivity. Qed.

(** ** One turn of the event loop *)

(** A submit: the errors are replaced wholesale, [formSubmitted] is set, and
    exactly when there are no errors the popup is shown and one more timer
    is queued behind the pending ones. *)
Lemma step_submit (w : World) :
  exists w',
    step w (ui submit) = Some w'
    /\ formValues (comp w') = formValues (comp w)
    /\ errors (comp w') = validateForm (formValues (comp w))
    /\ formSubmitted (comp w') = true
    /\ showPopup (comp w') =
         (if bool_decide (validateForm (formValues (comp w)) = ∅)
          then true else showPopup (comp w))
    /\ timers w' =
         (if bool_decide (validateForm (formValues (comp w)) = ∅)
          then (timers w ++ [mkTimer (clock w + 5000) dismiss])%list
          else timers w)
    /\ clock w' = clock w.
Proof.
  unfold step, handlerOf.
  destruct (handleFormSubmit_run (comp w) (store w)) as [h' ->].
  destruct (bool_decide (validateForm (formValues (comp w)) = ∅));
    eexists; (split; [reflexivity|]); cbn; repeat split; reflexivity.
Qed.

(** An edit: the edited cell takes the new value; after the first submit the
    one key of the edited field is patched with what [validateForm] says of
    the new snapshot; before it, nothing is computed. *)
Lemma step_edit (w : World) (u : UIEvent) (f : Field) (v : FieldValue) :
  editOf u (comp w) = Some (f, v) ->
  exists w',
    step w (ui u) = Some w'
    /\ formValues (comp w') = withField f v (formValues (comp w))
    /\ errors (comp w') =
         (if formSubmitted (comp w)
          then <[fieldName f :=
                   getProp (validateForm (withField f v (formValues (comp w))))
                     (fieldName f)]> (errors (comp w))
          else errors (comp w))
    /\ formSubmitted (comp w') = formSubmitted (comp w)
    /\ showPopup (comp w') = showPopup (comp w)
    /\ timers w' = timers w
    /\ clock w' = clock w
    /\ (formSubmitted (comp w) = false -> store w' = store w).
Proof.
  intros He. unfold step.
  destruct u; cbn in He; simplify_eq;
    unfold handlerOf, onChangeFirstName, onChangeLastName, onChangeEmail,
      onClickGeneralEnquiry, onClickSupportRequest, onChangeMessage, onClickConsent;
    unfold bind at 1; unfold call at 1; cbn [heap pending app];
    (destruct (formSubmitted (comp w)) eqn:Hs;
     [ match goal with
       | |- context [revalidate ?s ?k ?o {| heap := ?h; pending := ?q |}] =>
           destruct (revalidate_run s k o h q Hs) as [h' ->]
       end
     | rewrite (revalidate_skip _ _ _ _ Hs) ]);
    eexists; (split; [reflexivity|]); cbn; rewrite ?Hs;
    repeat split; try reflexivity; intros; discriminate.
Qed.

Lemma editOf_None (u : UIEvent) (s : State) : editOf u s = None -> u = submit.
Proof. destruct u; intros H; try discriminate H; reflexivity. Qed.

(** A timeout that runs: it was pending and due, it leaves the pending list,
    and its callback hides the popup. *)
Lemma step_timerFires (w w' : World) (i : nat) :
  timersDismiss w ->
  step w (timerFires i) = Some w' ->
  exists t,
    timers w !! i = Some t
    /\ (deadline t <= clock w)%N
    /\ formValues (comp w') = formValues (comp w)
    /\ errors (comp w') = errors (comp w)
    /\ formSubmitted (comp w') = formSubmitted (comp w)
    /\ showPopup (comp w') = false
    /\ timers w' = delete i (timers w)
    /\ clock w' = clock w.
Proof.
  intros Hd Hs. unfold step in Hs.
  destruct (timers w !! i) as [t|] eqn:Ht; [|discriminate Hs].
  destruct (deadline t <=? clock w)%N eqn:Hle; [|discriminate Hs].
  injection Hs as <-.
  rewrite (Forall_lookup_1 _ _ _ _ Hd Ht).
  exists t. apply N.leb_le in Hle. cbn. repeat split; try reflexivity; assumption.
Qed.

Lemma step_timersDismiss (w w' : World) (ev : Event) :
  timersDismiss w -> step w ev = Some w' -> timersDismiss w'.
Proof.
  intros Hd Hs. unfold timersDismiss in *. destruct ev as [u|i|d].
  - destruct (editOf u (comp w)) as [[f v]|] eqn:He.
    + destruct (step_edit w u f v He) as (w1 & Hw1 & _ & _ & _ & _ & Ht & _).
      rewrite Hw1 in Hs. injection Hs as <-. rewrite Ht. exact Hd.
    + apply editOf_None in He. subst u.
      destruct (step_submit w) as (w1 & Hw1 & _ & _ & _ & _ & Ht & _).
      rewrite Hw1 in Hs. injection Hs as <-. rewrite Ht.
      destruct (bool_decide _); [|exact Hd].
      apply Forall_app. split; [exact Hd|].
      apply Forall_cons. split; [reflexivity|apply Forall_nil; exact I].
  - destruct (step_timerFires w w' i Hd Hs) as (t & _ & _ & _ & _ & _ & _ & Ht & _).
    rewrite Ht. apply Forall_delete. exact Hd.
  - injection Hs as <-. exact Hd.
Qed.

(** ** Runs *)

Lemma run_app (w : World) (evs1 evs2 : list Event) :
  run w (evs1 ++ evs2) =
    match run w evs1 with
    | Some w1 => run w1 evs2
    | None => None
    end.
Proof.
  revert w. induction evs1 as [|ev evs1 IH]; intros w; simpl; [reflexivity|].
  destruct (step w ev); [apply IH|reflexivity].
Qed.

Lemma run_snoc_inv (w w' : World) (evs : list Event) (ev : Event) :
  run w (evs ++ [ev]) = Some w' ->
  exists w1, run w evs = Some w1 /\ step w1 ev = Some w'.
Proof.
  rewrite run_app. destruct (run w evs) as [w1|]; [|intros H; discriminate H].
  simpl. destruct (step w1 ev) as [w2|] eqn:Hs; intros H; [|discriminate H].
  exists w1. split; [reflexivity|]. rewrite Hs. exact H.
Qed.

(** A property kept by every step is kept by every run. *)
Lemma run_invariant (P : World -> Prop) :
  (forall w ev w', P w -> step w ev = Some w' -> P w') ->
  forall evs w w', P w -> run w evs = Some w' -> P w'.
Proof.
  intros Hstep. induction evs as [|ev evs IH]; intros w w' Hw Hr; simpl in Hr.
  - injection Hr as <-. exact Hw.
  - destruct (step w ev) as [w1|] eqn:Hs; [|discriminate Hr].
    exact (IH w1 w' (Hstep w ev w1 Hw Hs) Hr).
Qed.

Lemma run_timersDismiss (evs : list Event) (w w' : World) :
  timersDismiss w -> run w evs = Some w' -> timersDismiss w'.
Proof.
  apply (run_invariant timersDismiss).
  intros w0 ev w1. apply step_timersDismiss.
Qed.

Lemma reachable_timersDismiss (w : World) : reachable w -> timersDismiss w.
Proof.
  intros [evs Hr]. apply (run_timersDismiss evs initialWorld w); [|exact Hr].
  apply Forall_nil. exact I.
Qed.

Lemma reachable_run (w w' : World) (evs : list Event) :
  reachable w -> run w evs = Some w' -> reachable w'.
Proof.
  intros [evs0 Hr0] Hr. exists (evs0 ++ evs). rewrite run_app, Hr0. exact Hr.
Qed.

(** [validateForm] stores messages only, never [undefined]. *)
Lemma validateForm_stores_messages (fd : FormDataProps.t) (k : string) (x : ErrVal) :
  validateForm fd !! k = Some x -> exists msg, x = Msg msg.
Proof.
  rewrite validateForm_lookup.
  repeat case_decide; repeat case_match; intros Hx; simplify_eq; eauto.
Qed.

Lemma lengthWithin_false (lo hi : nat) (t : jsstring) :
  ~ (lo <= length t <= hi)%nat -> z.string_min_max lo hi t = false.
Proof.
  intros H. apply not_true_is_false. intros Hb. apply H.
  apply lengthWithin_spec. exact Hb.
Qed.

Lemma lengthWithin_true (lo hi : nat) (t : jsstring) :
  (lo <= length t <= hi)%nat -> z.string_min_max lo hi t = true.
Proof. apply lengthWithin_spec. Qed.

Lemma required_entry_iff (b c : bool) (m : string) :
  m <> "This field is required" ->
  (if negb b then Some (Msg m)
   else if c then Some (Msg "This field is required") else None)
    = Some (Msg "This field is required")
  <-> b = true /\ c = true.
Proof.
  intros Hm. destruct b, c; simpl; split; intros H;
    try (split; reflexivity); try reflexivity;
    try discriminate H; try (destruct H; discriminate);
    injection H as H; contradiction.
Qed.

(** ** The validator *)

(** C1. For every FormValues snapshot, the mapping returned by
    [validateForm] has a key for a field if and only if that field's own
    value breaks the field's rule; the mapping has no keys besides field
    names; and when every field satisfies its rule the mapping is empty. *)
Theorem validateForm_key_iff_rule_violated (fd : FormDataProps.t) :
  (forall f : Field,
      is_Some (validateForm fd !! fieldName f) <->
      satisfiesRule f (fieldValue f fd) = false)
  /\ (forall k : string,
         is_Some (validateForm fd !! k) -> exists f, k = fieldName f)
  /\ ((forall f : Field, satisfiesRule f (fieldValue f fd) = true) ->
      validateForm fd = ∅).
Proof.
  split; [exact (key_present_iff fd)|].
  split; [exact (validateForm_keys fd)|].
  intros Hall. apply map_eq. intros k. rewrite lookup_empty.
  destruct (validateForm fd !! k) as [x|] eqn:Hk; [|reflexivity].
  destruct (validateForm_keys fd k) as [f ->]; [rewrite Hk; eauto|].
  assert (Hf : satisfiesRule f (fieldValue f fd) = false)
    by (apply key_present_iff; rewrite Hk; eauto).
  rewrite Hall in Hf. discriminate Hf.
Qed.

(** C2. A first name, last name or message made of white space only whose
    length is within the field's bound gets "This field is required"; a
    string whose length is outside the bound gets the length message, so the
    trimmed-empty check counts only once the length check has passed. *)
Theorem whitespace_within_bound_is_required (fd : FormDataProps.t) :
  (whitespaceOnly (FormDataProps.firstName fd) = true ->
   (2 <= length (FormDataProps.firstName fd) <= 50)%nat ->
   validateForm fd !! "firstName" = Some (Msg "This field is required"))
  /\ (whitespaceOnly (FormDataProps.lastName fd) = true ->
      (2 <= length (FormDataProps.lastName fd) <= 50)%nat ->
      validateForm fd !! "lastName" = Some (Msg "This field is required"))
  /\ (whitespaceOnly (FormDataProps.message fd) = true ->
      (10 <= length (FormDataProps.message fd) <= 500)%nat ->
      validateForm fd !! "message" = Some (Msg "This field is required"))
  /\ (~ (2 <= length (FormDataProps.firstName fd) <= 50)%nat ->
      validateForm fd !! "firstName" =
        Some (Msg "First name must be between 2 and 50 characters"))
  /\ (~ (2 <= length (FormDataProps.lastName fd) <= 50)%nat ->
      validateForm fd !! "lastName" =
        Some (Msg "Last name must be between 2 and 50 characters"))
  /\ (~ (10 <= length (FormDataProps.message fd) <= 500)%nat ->
      validateForm fd !! "message" =
        Some (Msg "Message must be between 10 and 500 characters.")).
Proof.
  rewrite validateForm_firstName, validateForm_lastName, validateForm_message.
  unfold firstNameSchema, lastNameSchema, messageSchema.
  repeat split.
  1-3: intros Hw Hlen; apply trim_empty_iff in Hw;
       rewrite (lengthWithin_true _ _ _ Hlen), Hw; reflexivity.
  all: intros Hlen; rewrite (lengthWithin_false _ _ _ Hlen); reflexivity.
Qed.

(** C9. A first or last name whose length is outside [2,50] gets the
    length-range message, and "This field is required" is the entry exactly
    for the white-space-only names whose length is within [2,50]. *)
Theorem name_length_message_before_required (fd : FormDataProps.t) :
  (~ (2 <= length (FormDataProps.firstName fd) <= 50)%nat ->
   validateForm fd !! "firstName" =
     Some (Msg "First name must be between 2 and 50 characters"))
  /\ (validateForm fd !! "firstName" = Some (Msg "This field is required") <->
      (2 <= length (FormDataProps.firstName fd) <= 50)%nat
      /\ whitespaceOnly (FormDataProps.firstName fd) = true)
  /\ (~ (2 <= length (FormDataProps.lastName fd) <= 50)%nat ->
      validateForm fd !! "lastName" =
        Some (Msg "Last name must be between 2 and 50 characters"))
  /\ (validateForm fd !! "lastName" = Some (Msg "This field is required") <->
      (2 <= length (FormDataProps.lastName fd) <= 50)%nat
      /\ whitespaceOnly (FormDataProps.lastName fd) = true).
Proof.
  rewrite validateForm_firstName, validateForm_lastName.
  unfold firstNameSchema, lastNameSchema.
  split; [intros Hlen; rewrite (lengthWithin_false _ _ _ Hlen); reflexivity|].
  split; [rewrite <- trim_empty_iff, <- lengthWithin_spec;
          apply required_entry_iff; discriminate|].
  split; [intros Hlen; rewrite (lengthWithin_false _ _ _ Hlen); reflexivity|].
  rewrite <- trim_empty_iff, <- lengthWithin_spec.
  apply required_entry_iff; discriminate.
Qed.

(** C8. [validateForm] is a function of the content of its argument: run on
    two machines holding equal snapshots it returns, in both, a new object
    with the same mapping; the argument, every other object of the store and
    the log of setter and timer calls are as they were before the call. *)
Theorem validateForm_pure (m1 m2 : Machine) (l1 l2 : loc) (fd : FormDataProps.t) :
  heap m1 !! l1 = Some (FormDataObj fd) ->
  heap m2 !! l2 = Some (FormDataObj fd) ->
  exists (r1 r2 : loc) (m1' m2' : Machine),
    validateFormJS l1 m1 = Some (r1, m1')
    /\ validateFormJS l2 m2 = Some (r2, m2')
    /\ heap m1' !! r1 = Some (ErrorsObj (validateForm fd))
    /\ heap m2' !! r2 = Some (ErrorsObj (validateForm fd))
    /\ heap m1 !! r1 = None
    /\ heap m1' !! l1 = Some (FormDataObj fd)
    /\ (forall l : loc, l <> r1 -> heap m1' !! l = heap m1 !! l)
    /\ pending m1' = pending m1.
Proof.
  intros H1 H2.
  pose proof (fresh_loc_unused (heap m1)) as Hf.
  eexists _, _, _, _.
  split; [exact (validateFormJS_run m1 l1 fd H1)|].
  split; [exact (validateFormJS_run m2 l2 fd H2)|].
  cbn [heap pending]. rewrite !lookup_insert_eq.
  repeat split; try reflexivity; try exact Hf.
  - rewrite lookup_insert_ne; [exact H1|]. intros E. rewrite E, H1 in Hf. discriminate Hf.
  - intros l Hl. apply lookup_insert_ne. congruence.
Qed.

(** ** The interaction controller *)

(** C3. Submitting while every field still has its initial value and
    [formSubmitted] is false puts a message under each of the six keys, sets
    [formSubmitted], and neither shows the popup nor schedules a timer.
    (That the email check rejects the empty string is a fact about the
    library's check, here a hypothesis.) *)
Theorem submit_pristine_form_all_errors (w : World) :
  emailSchema [] = false ->
  formValues (comp w) = formValues initialState ->
  formSubmitted (comp w) = false ->
  exists w',
    step w (ui submit) = Some w'
    /\ (forall f : Field, exists msg, errors (comp w') !! fieldName f = Some (Msg msg))
    /\ formSubmitted (comp w') = true
    /\ showPopup (comp w') = showPopup (comp w)
    /\ timers w' = timers w.
Proof.
  intros Hemail Hvals _.
  destruct (step_submit w) as (w' & Hstep & _ & Herr & Hsub & Hpop & Htim & _).
  rewrite Hvals in Herr, Hpop, Htim.
  assert (Hq : validateForm (formValues initialState) !! "queryType"
               = Some (Msg "Please select a query type"))
    by (rewrite validateForm_queryType; reflexivity).
  assert (Hne : validateForm (formValues initialState) <> ∅)
    by (intros E; rewrite E, lookup_empty in Hq; discriminate Hq).
  rewrite (bool_decide_eq_false_2 _ Hne) in Hpop, Htim.
  exists w'. repeat split; try assumption.
  intros f. rewrite Herr. destruct f; cbn [fieldName].
  - eexists. exact Hq.
  - eexists. rewrite validateForm_firstName. reflexivity.
  - eexists. rewrite validateForm_lastName. reflexivity.
  - eexists. rewrite validateForm_email. cbn. rewrite Hemail. reflexivity.
  - eexists. rewrite validateForm_message. reflexivity.
  - eexists. rewrite validateForm_consent. reflexivity.
Qed.

(** C4. Once the form has been submitted, an edit of field [f] to value [v]
    takes [v] into the snapshot, leaves the other fields' values alone,
    makes [errors.f] what [validateForm] says of the new snapshot (a message
    when [v] breaks the rule of [f], [undefined] when it satisfies it), and
    leaves the entry of every other key as it was. *)
Theorem edit_after_submit_patches_one_entry
    (w : World) (u : UIEvent) (f : Field) (v : FieldValue) :
  formSubmitted (comp w) = true ->
  editOf u (comp w) = Some (f, v) ->
  exists w',
    step w (ui u) = Some w'
    /\ fieldValue f (formValues (comp w')) = v
    /\ (forall f', f' <> f ->
          fieldValue f' (formValues (comp w')) = fieldValue f' (formValues (comp w)))
    /\ getProp (errors (comp w')) (fieldName f)
         = getProp (validateForm (formValues (comp w'))) (fieldName f)
    /\ (satisfiesRule f v = true ->
          getProp (errors (comp w')) (fieldName f) = undefined)
    /\ (satisfiesRule f v = false ->
          exists msg, getProp (errors (comp w')) (fieldName f) = Msg msg)
    /\ (forall k : string, k <> fieldName f ->
          errors (comp w') !! k = errors (comp w) !! k).
Proof.
  intros Hsub He.
  destruct (step_edit w u f v He) as (w' & Hstep & Hvals & Herr & _).
  rewrite Hsub in Herr.
  assert (Hv : fieldValue f (formValues (comp w')) = v)
    by (rewrite Hvals; exact (fieldValue_withField_eq f v _ u (comp w) He)).
  assert (Hp : getProp (errors (comp w')) (fieldName f)
               = getProp (validateForm (formValues (comp w'))) (fieldName f)).
  { unfold getProp at 1. rewrite Herr, lookup_insert_eq, Hvals. reflexivity. }
  exists w'. split; [exact Hstep|]. split; [exact Hv|].
  split; [intros f' Hne; rewrite Hvals; apply fieldValue_withField_ne; exact Hne|].
  split; [exact Hp|].
  pose proof (key_present_iff (formValues (comp w')) f) as Hiff.
  rewrite Hv in Hiff.
  split; [|split].
  - intros Hok. rewrite Hp. unfold getProp.
    destruct (validateForm (formValues (comp w')) !! fieldName f) as [x|] eqn:Hx;
      [|reflexivity].
    assert (Hbad : satisfiesRule f v = false) by (apply Hiff; eauto).
    rewrite Hok in Hbad. discriminate Hbad.
  - intros Hbad. rewrite Hp. unfold getProp.
    apply Hiff in Hbad. destruct Hbad as [x Hx]. rewrite Hx.
    exact (validateForm_stores_messages _ _ _ Hx).
  - intros k Hk. rewrite Herr. apply lookup_insert_ne. congruence.
Qed.

(** C10. The entry [validateForm] gives a field is the same in any two
    snapshots that agree on that field's value; hence the entry an edit
    handler patches in is fixed by the edited field's new value, whatever
    the rest of the state is. *)
Theorem field_entry_depends_on_own_value_only :
  (forall (f : Field) (fd1 fd2 : FormDataProps.t),
      fieldValue f fd1 = fieldValue f fd2 ->
      validateForm fd1 !! fieldName f = validateForm fd2 !! fieldName f)
  /\ (forall (w1 w2 w1' w2' : World) (u1 u2 : UIEvent) (f : Field) (v : FieldValue),
         formSubmitted (comp w1) = true ->
         formSubmitted (comp w2) = true ->
         editOf u1 (comp w1) = Some (f, v) ->
         editOf u2 (comp w2) = Some (f, v) ->
         step w1 (ui u1) = Some w1' ->
         step w2 (ui u2) = Some w2' ->
         errors (comp w1') !! fieldName f = errors (comp w2') !! fieldName f).
Proof.
  split; [exact validateForm_field_local|].
  intros w1 w2 w1' w2' u1 u2 f v Hs1 Hs2 He1 He2 Hst1 Hst2.
  destruct (step_edit w1 u1 f v He1) as (x1 & Hx1 & _ & Herr1 & _).
  destruct (step_edit w2 u2 f v He2) as (x2 & Hx2 & _ & Herr2 & _).
  rewrite Hst1 in Hx1. rewrite Hst2 in Hx2. simplify_eq.
  rewrite Herr1, Herr2, Hs1, Hs2, !lookup_insert_eq.
  unfold getProp.
  rewrite (validateForm_field_local f
             (withField f v (formValues (comp w1)))
             (withField f v (formValues (comp w2)))); [reflexivity|].
  rewrite (fieldValue_withField_eq f v _ u1 (comp w1) He1).
  rewrite (fieldValue_withField_eq f v _ u1 (comp w1) He1). reflexivity.
Qed.

(** How a step can end with the popup showing: it is a submit of a snapshot
    without errors, or the popup was showing and no timeout ran. *)
Lemma step_showPopup_true (w w' : World) (ev : Event) :
  timersDismiss w ->
  step w ev = Some w' ->
  showPopup (comp w') = true ->
  (ev = ui submit /\ validateForm (formValues (comp w)) = ∅)
  \/ (showPopup (comp w) = true /\ isTimerFires ev = false).
Proof.
  intros Hd Hs Hp. destruct ev as [u|i|d].
  - destruct (editOf u (comp w)) as [[f v]|] eqn:He.
    + destruct (step_edit w u f v He) as (w1 & Hw1 & _ & _ & _ & Hp1 & _).
      rewrite Hw1 in Hs. injection Hs as <-. right. rewrite <- Hp1. auto.
    + apply editOf_None in He. subst u.
      destruct (step_submit w) as (w1 & Hw1 & _ & _ & _ & Hp1 & _).
      rewrite Hw1 in Hs. injection Hs as <-. rewrite Hp1 in Hp.
      destruct (bool_decide _) eqn:Hb.
      * left. split; [reflexivity|]. apply bool_decide_eq_true in Hb. exact Hb.
      * right. auto.
  - destruct (step_timerFires w w' i Hd Hs) as (t & _ & _ & _ & _ & _ & Hf & _).
    rewrite Hf in Hp. discriminate Hp.
  - injection Hs as <-. right. auto.
Qed.

Lemma step_submittedOnce (w w' : World) (ev : Event) :
  submittedOnce w -> step w ev = Some w' -> submittedOnce w'.
Proof.
  intros [Hd Hsub] Hs. split; [exact (step_timersDismiss w w' ev Hd Hs)|].
  destruct ev as [u|i|d].
  - destruct (editOf u (comp w)) as [[f v]|] eqn:He.
    + destruct (step_edit w u f v He) as (w1 & Hw1 & _ & _ & Hf & _).
      rewrite Hw1 in Hs. injection Hs as <-. rewrite Hf. exact Hsub.
    + apply editOf_None in He. subst u.
      destruct (step_submit w) as (w1 & Hw1 & _ & _ & Hf & _).
      rewrite Hw1 in Hs. injection Hs as <-. exact Hf.
  - destruct (step_timerFires w w' i Hd Hs) as (t & _ & _ & _ & _ & Hf & _).
    rewrite Hf. exact Hsub.
  - injection Hs as <-. exact Hsub.
Qed.

Lemma step_pristineClean (w w' : World) (ev : Event) :
  pristineClean w -> step w ev = Some w' -> pristineClean w'.
Proof.
  intros [Hd Hclean] Hs. split; [exact (step_timersDismiss w w' ev Hd Hs)|].
  destruct ev as [u|i|d].
  - destruct (editOf u (comp w)) as [[f v]|] eqn:He.
    + destruct (step_edit w u f v He) as (w1 & Hw1 & _ & He1 & Hf & _).
      rewrite Hw1 in Hs. injection Hs as <-. rewrite Hf, He1.
      intros Hfalse. rewrite Hfalse. exact (Hclean Hfalse).
    + apply editOf_None in He. subst u.
      destruct (step_submit w) as (w1 & Hw1 & _ & _ & Hf & _).
      rewrite Hw1 in Hs. injection Hs as <-. rewrite Hf. intros H; discriminate H.
  - destruct (step_timerFires w w' i Hd Hs) as (t & _ & _ & _ & He1 & Hf & _).
    rewrite Hf, He1. exact Hclean.
  - injection Hs as <-. exact Hclean.
Qed.

Lemma step_popupHeld (D : N) (w w' : World) (ev : Event) :
  popupHeld D w -> step w ev = Some w' -> popupHeld D w'.
Proof.
  intros (Hd & Hdue & Hnew & Hshow) Hs.
  split; [exact (step_timersDismiss w w' ev Hd Hs)|].
  destruct ev as [u|i|d].
  - destruct (editOf u (comp w)) as [[f v]|] eqn:He.
    + destruct (step_edit w u f v He) as (w1 & Hw1 & _ & _ & _ & Hp & Ht & Hc & _).
      rewrite Hw1 in Hs. injection Hs as <-. rewrite Hp, Ht, Hc. auto.
    + apply editOf_None in He. subst u.
      destruct (step_submit w) as (w1 & Hw1 & _ & _ & _ & Hp & Ht & Hc).
      rewrite Hw1 in Hs. injection Hs as <-. rewrite Hp, Ht, Hc.
      destruct (bool_decide _); [|auto].
      split; [|auto].
      apply Forall_app. split; [exact Hdue|].
      apply Forall_cons. split; [exact Hnew|apply Forall_nil; exact I].
  - destruct (step_timerFires w w' i Hd Hs)
      as (t & Hlook & Hle & _ & _ & _ & _ & Ht & Hc).
    rewrite Ht, Hc.
    pose proof (Forall_lookup_1 _ _ _ _ Hdue Hlook) as HD. cbn beta in HD.
    split; [apply Forall_delete; exact Hdue|].
    split; [exact Hnew|]. intros Hlt. lia.
  - injection Hs as <-. cbn.
    split; [exact Hdue|]. split; [lia|]. intros Hlt. apply Hshow. lia.
Qed.

(** C5. The popup comes up only through a submit whose snapshot has no
    errors: a step of a reachable state that turns [showPopup] from false to
    true is such a submit, and whenever [showPopup] is true at the end of a
    run, the run contains such a submit after which no timeout has run. *)
Theorem popup_only_after_valid_submit :
  (forall (w w' : World) (ev : Event),
      reachable w ->
      step w ev = Some w' ->
      showPopup (comp w) = false ->
      showPopup (comp w') = true ->
      ev = ui submit /\ validateForm (formValues (comp w)) = ∅)
  /\ (forall (evs : list Event) (w : World),
         run initialWorld evs = Some w ->
         showPopup (comp w) = true ->
         exists (pre post : list Event) (w0 : World),
           evs = pre ++ ui submit :: post
           /\ run initialWorld pre = Some w0
           /\ validateForm (formValues (comp w0)) = ∅
           /\ Forall (fun ev => isTimerFires ev = false) post).
Proof.
  split.
  - intros w w' ev Hr Hs Hoff Hon.
    destruct (step_showPopup_true w w' ev (reachable_timersDismiss w Hr) Hs Hon)
      as [Hsub|[Hwas _]]; [exact Hsub|].
    rewrite Hoff in Hwas. discriminate Hwas.
  - induction evs as [|ev evs IH] using rev_ind; intros w Hrun Hon.
    + injection Hrun as <-. discriminate Hon.
    + destruct (run_snoc_inv _ _ _ _ Hrun) as (w1 & Hrun1 & Hs).
      assert (Hr1 : reachable w1) by (exists evs; exact Hrun1).
      destruct (step_showPopup_true w1 w ev (reachable_timersDismiss w1 Hr1) Hs Hon)
        as [[-> Hvalid]|[Hwas Hnot]].
      * exists evs, [], w1. repeat split; try assumption. apply Forall_nil. exact I.
      * destruct (IH w1 Hrun1 Hwas) as (pre & post & w0 & -> & Hpre & Hvalid & Hpost).
        exists pre, (post ++ [ev]), w0.
        split; [rewrite <- app_assoc; reflexivity|].
        split; [exact Hpre|]. split; [exact Hvalid|].
        apply Forall_app. split; [exact Hpost|].
        apply Forall_cons. split; [exact Hnot|apply Forall_nil; exact I].
Qed.

Lemma run_popupHeld (D : N) (evs : list Event) (w w' : World) :
  popupHeld D w -> run w evs = Some w' -> popupHeld D w'.
Proof.
  apply (run_invariant (popupHeld D)).
  intros w0 ev w1. apply step_popupHeld.
Qed.

(** C6. A submit of a snapshot without errors shows the popup and queues,
    behind the timers already pending, one timer due 5000 ms later whose
    callback hides the popup.  That timer cannot run before the 5000 ms have
    passed and can run once they have; whichever pending timer runs first
    hides the popup and only that timer leaves the queue; and when no
    earlier timer was pending, the popup shows at every later moment that
    is less than 5000 ms after the submit. *)
Theorem valid_submit_popup_and_timer (w : World) :
  reachable w ->
  validateForm (formValues (comp w)) = ∅ ->
  exists w1,
    step w (ui submit) = Some w1
    /\ showPopup (comp w1) = true
    /\ timers w1 = timers w ++ [mkTimer (clock w + 5000) dismiss]
    /\ clock w1 = clock w
    /\ (forall d : N, (d < 5000)%N ->
          run w1 [elapse d; timerFires (length (timers w))] = None)
    /\ (exists w2,
          run w1 [elapse 5000; timerFires (length (timers w))] = Some w2
          /\ showPopup (comp w2) = false
          /\ timers w2 = timers w)
    /\ (forall (evs : list Event) (w2 w3 : World) (i : nat),
          run w1 evs = Some w2 ->
          step w2 (timerFires i) = Some w3 ->
          showPopup (comp w3) = false /\ timers w3 = delete i (timers w2))
    /\ (timers w = [] ->
        forall (evs : list Event) (w2 : World),
          run w1 evs = Some w2 ->
          (clock w2 < clock w + 5000)%N ->
          showPopup (comp w2) = true).
Proof.
  intros Hr Hvalid.
  destruct (step_submit w) as (w1 & Hstep & _ & _ & _ & Hp & Ht & Hc).
  rewrite Hvalid in Hp, Ht. rewrite bool_decide_eq_true_2 in Hp, Ht by reflexivity.
  assert (Hr1 : reachable w1) by (apply (reachable_run w w1 [ui submit] Hr);
                                  cbn [run]; rewrite Hstep; reflexivity).
  pose proof (reachable_timersDismiss w1 Hr1) as Hd1.
  assert (Hnew : timers w1 !! length (timers w)
                 = Some (mkTimer (clock w + 5000) dismiss))
    by (rewrite Ht; apply list_lookup_middle; reflexivity).
  exists w1. split; [exact Hstep|]. split; [exact Hp|].
  split; [exact Ht|]. split; [exact Hc|].
  split; [|split; [|split]].
  - intros d Hlt. cbn [run step timers clock]. rewrite Hnew. cbn [deadline].
    rewrite Hc. destruct (N.leb_spec (clock w + 5000) (clock w + d)) as [Hle|_];
      [lia|reflexivity].
  - cbn [run step timers clock comp store]. rewrite Hnew. cbn [deadline callback].
    rewrite Hc, N.leb_refl. eexists. split; [reflexivity|].
    cbn. split; [reflexivity|].
    rewrite Ht. clear. induction (timers w) as [|t ts IH]; [reflexivity|].
    cbn. f_equal. exact IH.
  - intros evs w2 w3 i Hrun Hfire.
    assert (Hd2 : timersDismiss w2) by (exact (run_timersDismiss evs w1 w2 Hd1 Hrun)).
    destruct (step_timerFires w2 w3 i Hd2 Hfire) as (t & _ & _ & _ & _ & _ & Hf & Hdel & _).
    split; assumption.
  - intros Hnone evs w2 Hrun Hlt.
    assert (Hheld : popupHeld (clock w + 5000) w1).
    { split; [exact Hd1|]. rewrite Ht, Hnone, Hc, Hp.
      split; [|split; [lia|reflexivity]].
      apply Forall_cons. split; [cbn; lia|apply Forall_nil; exact I]. }
    destruct (run_popupHeld _ evs w1 w2 Hheld Hrun) as (_ & _ & _ & Hshow).
    exact (Hshow Hlt).
Qed.

Lemma run_submittedOnce (evs : list Event) (w w' : World) :
  submittedOnce w -> run w evs = Some w' -> submittedOnce w'.
Proof.
  apply (run_invariant submittedOnce).
  intros w0 ev w1. apply step_submittedOnce.
Qed.

Lemma reachable_pristineClean (w : World) : reachable w -> pristineClean w.
Proof.
  intros [evs Hrun].
  apply (run_invariant pristineClean
           (fun w0 ev w1 => step_pristineClean w0 w1 ev) evs initialWorld w);
    [|exact Hrun].
  split; [apply Forall_nil; exact I|reflexivity].
Qed.

(** C7. [formSubmitted] starts false; after a submit it is true in every
    later state of the run, and no step of a reachable state turns it back
    to false; while it is false an edit changes the edited value only (the
    errors and the object store are untouched, nothing is validated), and
    the errors of a reachable state that has seen no submit are empty. *)
Theorem formSubmitted_latches_and_pristine_edits_skip_validation :
  formSubmitted (comp initialWorld) = false
  /\ (forall (evs1 evs2 : list Event) (w : World),
         run initialWorld (evs1 ++ ui submit :: evs2) = Some w ->
         formSubmitted (comp w) = true)
  /\ (forall (w w' : World) (ev : Event),
         reachable w ->
         formSubmitted (comp w) = true ->
         step w ev = Some w' ->
         formSubmitted (comp w') = true)
  /\ (forall (w : World) (u : UIEvent) (f : Field) (v : FieldValue),
         formSubmitted (comp w) = false ->
         editOf u (comp w) = Some (f, v) ->
         exists w',
           step w (ui u) = Some w'
           /\ formValues (comp w') = withField f v (formValues (comp w))
           /\ errors (comp w') = errors (comp w)
           /\ store w' = store w
           /\ formSubmitted (comp w') = false)
  /\ (forall w : World,
         reachable w -> formSubmitted (comp w) = false -> errors (comp w) = ∅).
Proof.
  split; [reflexivity|]. split; [|split; [|split]].
  - intros evs1 evs2 w Hrun. rewrite run_app in Hrun.
    destruct (run initialWorld evs1) as [w1|] eqn:Hrun1; [|discriminate Hrun].
    cbn [run] in Hrun.
    destruct (step w1 (ui submit)) as [w2|] eqn:Hs; [|discriminate Hrun].
    assert (Hr1 : reachable w1) by (exists evs1; exact Hrun1).
    destruct (step_submit w1) as (x & Hx & _ & _ & Hf & _).
    rewrite Hs in Hx. injection Hx as <-.
    assert (H2 : submittedOnce w2).
    { split; [|exact Hf].
      exact (step_timersDismiss w1 w2 _ (reachable_timersDismiss w1 Hr1) Hs). }
    exact (proj2 (run_submittedOnce evs2 w2 w H2 Hrun)).
  - intros w w' ev Hr Hf Hs.
    exact (proj2 (step_submittedOnce w w' ev
                    (conj (reachable_timersDismiss w Hr) Hf) Hs)).
  - intros w u f v Hf He.
    destruct (step_edit w u f v He) as (w' & Hs & Hv & Herr & Hf' & _ & _ & _ & Hst).
    rewrite Hf in Herr, Hf'. exists w'. repeat split; auto.
  - intros w Hr. exact (proj2 (reachable_pristineClean w Hr)).
Qed.

(** ** Further properties of the validator and the controller *)

Lemma fieldName_cases (k : string) :
  (exists f, k = fieldName f) \/ (forall f, k <> fieldName f).
Proof.
  destruct (decide (k = "queryType")) as [->|H1]; [left; exists QueryTypeF; reflexivity|].
  destruct (decide (k = "firstName")) as [->|H2]; [left; exists FirstNameF; reflexivity|].
  destruct (decide (k = "lastName")) as [->|H3]; [left; exists LastNameF; reflexivity|].
  destruct (decide (k = "email")) as [->|H4]; [left; exists EmailF; reflexivity|].
  destruct (decide (k = "message")) as [->|H5]; [left; exists MessageF; reflexivity|].
  destruct (decide (k = "consent")) as [->|H6]; [left; exists ConsentF; reflexivity|].
  right. intros f. destruct f; assumption.
Qed.

(** Replacing one field leaves the entries of all other keys as they were. *)
Lemma validateForm_withField_other (f : Field) (v : FieldValue)
    (fd : FormDataProps.t) (k : string) :
  k <> fieldName f ->
  validateForm (withField f v fd) !! k = validateForm fd !! k.
Proof.
  intros Hk. destruct (fieldName_cases k) as [[f' ->]|Hnone].
  - apply validateForm_field_local. apply fieldValue_withField_ne. congruence.
  - destruct (validateForm (withField f v fd) !! k) as [x|] eqn:E1.
    + destruct (validateForm_keys (withField f v fd) k) as [f' ->];
        [rewrite E1; eauto|].
      exfalso. exact (Hnone f' eq_refl).
    + destruct (validateForm fd !! k) as [y|] eqn:E2; [|reflexivity].
      destruct (validateForm_keys fd k) as [f' ->]; [rewrite E2; eauto|].
      exfalso. exact (Hnone f' eq_refl).
Qed.

(** The messages of [validateForm] are not empty. *)
Lemma validateForm_message_nonempty (fd : FormDataProps.t) (k m : string) :
  validateForm fd !! k = Some (Msg m) -> m <> "".
Proof.
  rewrite validateForm_lookup.
  repeat case_decide; repeat case_match; intros Hx; simplify_eq; discriminate.
Qed.

Lemma getProp_insert_eq (e : FormErrorsProps) (k : string) (x : ErrVal) :
  getProp (<[k := x]> e) k = x.
Proof. unfold getProp. rewrite lookup_insert_eq. reflexivity. Qed.

Lemma getProp_insert_ne (e : FormErrorsProps) (k k' : string) (x : ErrVal) :
  k <> k' -> getProp (<[k := x]> e) k' = getProp e k'.
Proof. intros H. unfold getProp. rewrite lookup_insert_ne by exact H. reflexivity. Qed.

Lemma step_errorsInSync (w w' : World) (ev : Event) :
  errorsInSync w -> step w ev = Some w' -> errorsInSync w'.
Proof.
  intros [Hd Hsync] Hs. split; [exact (step_timersDismiss w w' ev Hd Hs)|].
  destruct ev as [u|i|d].
  - destruct (editOf u (comp w)) as [[f v]|] eqn:He.
    + destruct (step_edit w u f v He) as (w1 & Hw1 & Hv & Herr & Hf & _).
      rewrite Hw1 in Hs. injection Hs as <-. rewrite Hf, Hv, Herr.
      intros Hsub k. rewrite Hsub.
      destruct (decide (fieldName f = k)) as [<-|Hne].
      * apply getProp_insert_eq.
      * rewrite (getProp_insert_ne _ _ _ _ Hne), (Hsync Hsub k).
        unfold getProp. rewrite validateForm_withField_other by congruence.
        reflexivity.
    + apply editOf_None in He. subst u.
      destruct (step_submit w) as (w1 & Hw1 & Hv & Herr & _).
      rewrite Hw1 in Hs. injection Hs as <-. rewrite Hv, Herr. reflexivity.
  - destruct (step_timerFires w w' i Hd Hs) as (t & _ & _ & Hv & Herr & Hf & _).
    rewrite Hv, Herr, Hf. exact Hsync.
  - injection Hs as <-. exact Hsync.
Qed.

Lemma reachable_errorsInSync (w : World) : reachable w -> errorsInSync w.
Proof.
  intros [evs Hrun].
  apply (run_invariant errorsInSync
           (fun w0 ev w1 => step_errorsInSync w0 w1 ev) evs initialWorld w);
    [|exact Hrun].
  split; [apply Forall_nil; exact I|]. intros H; discriminate H.
Qed.

Lemma errors_track_current_values_aux (w : World) (k : string) :
  reachable w ->
  formSubmitted (comp w) = true ->
  getProp (errors (comp w)) k = getProp (validateForm (formValues (comp w))) k.
Proof.
  intros Hr Hsub. exact (proj2 (reachable_errorsInSync w Hr) Hsub k).
Qed.

(** X1. In every reachable state in which the form has been submitted,
    reading [errors.k] gives, for every key, exactly what [validateForm]
    says of the current field values: the errors never go stale. *)
Theorem errors_track_current_values (w : World) (k : string) :
  reachable w ->
  formSubmitted (comp w) = true ->
  getProp (errors (comp w)) k = getProp (validateForm (formValues (comp w))) k.
Proof.
  exact (errors_track_current_values_aux w k).
Qed.

Lemma step_errorKeysAreFields (w w' : World) (ev : Event) :
  errorKeysAreFields w -> step w ev = Some w' -> errorKeysAreFields w'.
Proof.
  intros [Hd Hkeys] Hs. split; [exact (step_timersDismiss w w' ev Hd Hs)|].
  destruct ev as [u|i|d].
  - destruct (editOf u (comp w)) as [[f v]|] eqn:He.
    + destruct (step_edit w u f v He) as (w1 & Hw1 & _ & Herr & _).
      rewrite Hw1 in Hs. injection Hs as <-. rewrite Herr.
      destruct (formSubmitted (comp w)); [|exact Hkeys].
      intros k. destruct (decide (fieldName f = k)) as [<-|Hne]; [eauto|].
      rewrite lookup_insert_ne by exact Hne. apply Hkeys.
    + apply editOf_None in He. subst u.
      destruct (step_submit w) as (w1 & Hw1 & _ & Herr & _).
      rewrite Hw1 in Hs. injection Hs as <-. rewrite Herr.
      intros k. apply validateForm_keys.
  - destruct (step_timerFires w w' i Hd Hs) as (t & _ & _ & _ & Herr & _).
    rewrite Herr. exact Hkeys.
  - injection Hs as <-. exact Hkeys.
Qed.

(** X2. In every reachable state the keys of [errors] are among the six
    field names, and every value stored is [undefined] or a non-empty
    message. *)
Theorem error_keys_are_field_names (w : World) (k : string) (x : ErrVal) :
  reachable w ->
  errors (comp w) !! k = Some x ->
  (exists f, k = fieldName f)
  /\ (x = undefined \/ exists m, x = Msg m /\ m <> "").
Proof.
  intros Hr Hx.
  assert (Hkeys : errorKeysAreFields w).
  { destruct Hr as [evs Hrun].
    apply (run_invariant errorKeysAreFields
             (fun w0 ev w1 => step_errorKeysAreFields w0 w1 ev) evs initialWorld w);
      [|exact Hrun].
    split; [apply Forall_nil; exact I|].
    intros k' [y Hy]. cbn in Hy. rewrite lookup_empty in Hy. discriminate Hy. }
  split; [apply (proj2 Hkeys); rewrite Hx; eauto|].
  destruct x as [|m]; [left; reflexivity|right].
  exists m. split; [reflexivity|].
  destruct (formSubmitted (comp w)) eqn:Hsub.
  - pose proof (errors_track_current_values_aux w k Hr Hsub) as Hsync.
    unfold getProp in Hsync. rewrite Hx in Hsync. cbn in Hsync.
    destruct (validateForm (formValues (comp w)) !! k) as [y|] eqn:Hy;
      cbn in Hsync; [|discriminate Hsync].
    subst y. exact (validateForm_message_nonempty _ _ _ Hy).
  - rewrite (proj2 (reachable_pristineClean w Hr) Hsub), lookup_empty in Hx.
    discriminate Hx.
Qed.

Lemma renderError_of_getProp (s : State) (k : string) :
  renderError s k =
    match getProp (errors s) k with
    | Msg m => if bool_decide (m = "") then None else Some m
    | undefined => None
    end.
Proof.
  unfold renderError, truthy. destruct (getProp (errors s) k) as [|m]; [reflexivity|].
  destruct (bool_decide (m = "")); reflexivity.
Qed.

(** What is rendered under a field of a reachable state. *)
Lemma renderError_reachable (w : World) (k : string) :
  reachable w ->
  renderError (comp w) k =
    if formSubmitted (comp w)
    then match validateForm (formValues (comp w)) !! k with
         | Some (Msg m) => Some m
         | _ => None
         end
    else None.
Proof.
  intros Hr. rewrite renderError_of_getProp.
  destruct (formSubmitted (comp w)) eqn:Hsub.
  - rewrite (errors_track_current_values_aux w k Hr Hsub). unfold getProp.
    destruct (validateForm (formValues (comp w)) !! k) as [[|m]|] eqn:Hk;
      try reflexivity.
    cbn. rewrite bool_decide_eq_false_2; [reflexivity|].
    exact (validateForm_message_nonempty _ _ _ Hk).
  - unfold getProp.
    rewrite (proj2 (reachable_pristineClean w Hr) Hsub), lookup_empty. reflexivity.
Qed.

(** X3. In every reachable state, an error paragraph is rendered under a
    field exactly when the form has been submitted and the field's current
    value breaks its rule, and its text is the message [validateForm] gives
    the current snapshot for that field. *)
Theorem rendered_error_iff_submitted_and_violated (w : World) (f : Field) :
  reachable w ->
  (is_Some (renderError (comp w) (fieldName f)) <->
   formSubmitted (comp w) = true
   /\ satisfiesRule f (fieldValue f (formValues (comp w))) = false)
  /\ (forall m : string,
         renderError (comp w) (fieldName f) = Some m ->
         validateForm (formValues (comp w)) !! fieldName f = Some (Msg m)).
Proof.
  intros Hr. rewrite (renderError_reachable w (fieldName f) Hr).
  pose proof (key_present_iff (formValues (comp w)) f) as Hiff.
  destruct (formSubmitted (comp w)).
  - destruct (validateForm (formValues (comp w)) !! fieldName f) as [[|m]|] eqn:Hk.
    + destruct (validateForm_stores_messages _ _ _ Hk) as [m Hm]. discriminate Hm.
    + split; [|intros m' Hm'; congruence].
      split; [intros _; split; [reflexivity|apply Hiff; eauto]|eauto].
    + split; [|intros m' Hm'; discriminate Hm'].
      split; [intros [? H]; discriminate H|].
      intros [_ Hbad]. apply Hiff in Hbad. destruct Hbad as [? H]. discriminate H.
  - split; [|intros m' Hm'; discriminate Hm'].
    split; [intros [? H]; discriminate H|intros [H _]; discriminate H].
Qed.

Lemma nothing_rendered_iff_valid (w : World) :
  reachable w ->
  formSubmitted (comp w) = true ->
  (forall f, renderError (comp w) (fieldName f) = None) <->
  validateForm (formValues (comp w)) = ∅.
Proof.
  intros Hr Hsub. split.
  - intros Hnone. apply map_eq. intros k. rewrite lookup_empty.
    destruct (validateForm (formValues (comp w)) !! k) as [x|] eqn:Hk; [|reflexivity].
    destruct (validateForm_keys (formValues (comp w)) k) as [f ->];
      [rewrite Hk; eauto|].
    destruct (validateForm_stores_messages _ _ _ Hk) as [m ->].
    specialize (Hnone f).
    rewrite (renderError_reachable w (fieldName f) Hr), Hsub, Hk in Hnone.
    discriminate Hnone.
  - intros Hvalid f.
    rewrite (renderError_reachable w (fieldName f) Hr), Hsub, Hvalid, lookup_empty.
    reflexivity.
Qed.

(** X4. Once the form has been submitted, a further submit goes by what the
    page shows: with no error paragraph rendered it shows the popup and
    queues a timer; with one rendered it leaves popup and timers as they
    are (a popup still showing stays); either way the rendered errors do
    not change. *)
Theorem resubmit_follows_rendered_errors (w : World) :
  reachable w ->
  formSubmitted (comp w) = true ->
  exists w',
    step w (ui submit) = Some w'
    /\ ((forall f, renderError (comp w) (fieldName f) = None) ->
        showPopup (comp w') = true
        /\ timers w' = timers w ++ [mkTimer (clock w + 5000) dismiss])
    /\ (forall f, is_Some (renderError (comp w) (fieldName f)) ->
        showPopup (comp w') = showPopup (comp w) /\ timers w' = timers w)
    /\ (forall k, renderError (comp w') k = renderError (comp w) k).
Proof.
  intros Hr Hsub.
  destruct (step_submit w) as (w' & Hstep & Hv & Herr & _ & Hp & Ht & _).
  exists w'. split; [exact Hstep|]. split; [|split].
  - intros Hnone.
    rewrite (proj1 (nothing_rendered_iff_valid w Hr Hsub) Hnone) in Hp, Ht.
    rewrite bool_decide_eq_true_2 in Hp, Ht by reflexivity. split; assumption.
  - intros f [m Hm].
    assert (Hne : validateForm (formValues (comp w)) <> ∅).
    { intros Hvalid.
      rewrite (proj2 (nothing_rendered_iff_valid w Hr Hsub) Hvalid f) in Hm.
      discriminate Hm. }
    rewrite (bool_decide_eq_false_2 _ Hne) in Hp, Ht. split; assumption.
  - intros k. rewrite !renderError_of_getProp, Herr.
    rewrite (errors_track_current_values_aux w k Hr Hsub). reflexivity.
Qed.

(** X5. A step changes the value of a field only if it is an edit of that
    very field, to the value found afterwards: submits (valid ones too),
    timeouts, the passing of time and edits of other fields leave it. *)
Theorem field_value_changes_only_by_its_edit
    (w w' : World) (ev : Event) (f : Field) :
  reachable w ->
  step w ev = Some w' ->
  fieldValue f (formValues (comp w')) <> fieldValue f (formValues (comp w)) ->
  exists u, ev = ui u
            /\ editOf u (comp w) = Some (f, fieldValue f (formValues (comp w'))).
Proof.
  intros Hr Hs Hch. pose proof (reachable_timersDismiss w Hr) as Hd.
  destruct ev as [u|i|d].
  - destruct (editOf u (comp w)) as [[f0 v0]|] eqn:He.
    + destruct (step_edit w u f0 v0 He) as (w1 & Hw1 & Hv & _).
      rewrite Hw1 in Hs. injection Hs as <-. rewrite Hv in Hch |- *.
      destruct (decide (fieldName f = fieldName f0)) as [E|Hne].
      * apply fieldName_inj in E. subst f0. exists u. split; [reflexivity|].
        rewrite (fieldValue_withField_eq f v0 _ u (comp w) He). exact He.
      * exfalso. apply Hch. apply fieldValue_withField_ne. congruence.
    + apply editOf_None in He. subst u.
      destruct (step_submit w) as (w1 & Hw1 & Hv & _).
      rewrite Hw1 in Hs. injection Hs as <-. rewrite Hv in Hch.
      exfalso. apply Hch. reflexivity.
  - destruct (step_timerFires w w' i Hd Hs) as (t & _ & _ & Hv & _).
    rewrite Hv in Hch. exfalso. apply Hch. reflexivity.
  - injection Hs as <-. exfalso. apply Hch. reflexivity.
Qed.

Lemma step_popupHasTimer (w w' : World) (ev : Event) :
  popupHasTimer w -> step w ev = Some w' -> popupHasTimer w'.
Proof.
  intros (Hd & Hdue & Hpend) Hs.
  split; [exact (step_timersDismiss w w' ev Hd Hs)|].
  destruct ev as [u|i|d].
  - destruct (editOf u (comp w)) as [[f v]|] eqn:He.
    + destruct (step_edit w u f v He) as (w1 & Hw1 & _ & _ & _ & Hp & Ht & Hc & _).
      rewrite Hw1 in Hs. injection Hs as <-. rewrite Hp, Ht, Hc. auto.
    + apply editOf_None in He. subst u.
      destruct (step_submit w) as (w1 & Hw1 & _ & _ & _ & Hp & Ht & Hc).
      rewrite Hw1 in Hs. injection Hs as <-. rewrite Hp, Ht, Hc.
      destruct (bool_decide _); [|auto].
      split.
      * apply Forall_app. split; [exact Hdue|].
        apply Forall_cons. split; [cbn; lia|apply Forall_nil; exact I].
      * intros _ E. apply app_eq_nil in E. destruct E as [_ E]. discriminate E.
  - destruct (step_timerFires w w' i Hd Hs) as (t & _ & _ & _ & _ & _ & Hp & Ht & Hc).
    rewrite Hp, Ht, Hc. split; [apply Forall_delete; exact Hdue|].
    intros H; discriminate H.
  - injection Hs as <-. cbn. split; [|exact Hpend].
    eapply Forall_impl; [exact Hdue|]. cbn. intros t Ht. lia.
Qed.

(** X6. In every reachable state, a showing popup has a timer pending that
    will hide it; every pending timer carries the callback that hides the
    popup and is due no later than 5000 ms from now. *)
Theorem showing_popup_has_pending_timer (w : World) :
  reachable w ->
  (showPopup (comp w) = true -> timers w <> [])
  /\ Forall (fun t => callback t = dismiss /\ (deadline t <= clock w + 5000)%N)
       (timers w).
Proof.
  intros [evs Hrun].
  assert (Hinv : popupHasTimer w).
  { apply (run_invariant popupHasTimer
             (fun w0 ev w1 => step_popupHasTimer w0 w1 ev) evs initialWorld w);
      [|exact Hrun].
    split; [apply Forall_nil; exact I|].
    split; [apply Forall_nil; exact I|]. intros H; discriminate H. }
  destruct Hinv as (Hd & Hdue & Hpend). split; [exact Hpend|].
  apply Forall_forall. intros t Ht. split.
  - exact (proj1 (Forall_forall _ _) Hd t Ht).
  - exact (proj1 (Forall_forall _ _) Hdue t Ht).
Qed.

Lemma step_pristineQuiet (w w' : World) (ev : Event) :
  timersDismiss w /\ pristineQuiet w ->
  step w ev = Some w' ->
  timersDismiss w' /\ pristineQuiet w'.
Proof.
  intros [Hd Hq] Hs. split; [exact (step_timersDismiss w w' ev Hd Hs)|].
  unfold pristineQuiet in *. destruct ev as [u|i|d].
  - destruct (editOf u (comp w)) as [[f v]|] eqn:He.
    + destruct (step_edit w u f v He)
        as (w1 & Hw1 & _ & _ & Hf & Hp & Ht & _ & Hst).
      rewrite Hw1 in Hs. injection Hs as <-. rewrite Hf, Hp, Ht.
      intros Hfalse. rewrite (Hst Hfalse). exact (Hq Hfalse).
    + apply editOf_None in He. subst u.
      destruct (step_submit w) as (w1 & Hw1 & _ & _ & Hf & _).
      rewrite Hw1 in Hs. injection Hs as <-. rewrite Hf. intros H; discriminate H.
  - destruct (step_timerFires w w' i Hd Hs) as (t & Hlook & _ & _ & _ & Hf & _).
    rewrite Hf. intros Hfalse. destruct (Hq Hfalse) as (_ & Hnil & _).
    rewrite Hnil in Hlook. discriminate Hlook.
  - injection Hs as <-. exact Hq.
Qed.

(** X7. Until the first submit nothing happens besides the edits: in every
    reachable state with [formSubmitted] false the popup is hidden, no
    timer is pending, no object has been allocated and no error paragraph
    is rendered. *)
Theorem nothing_happens_before_first_submit (w : World) :
  reachable w ->
  formSubmitted (comp w) = false ->
  showPopup (comp w) = false
  /\ timers w = []
  /\ store w = ∅
  /\ (forall k, renderError (comp w) k = None).
Proof.
  intros Hr Hfalse.
  assert (Hinv : timersDismiss w /\ pristineQuiet w).
  { destruct Hr as [evs Hrun].
    apply (run_invariant (fun w0 => timersDismiss w0 /\ pristineQuiet w0)
             (fun w0 ev w1 => step_pristineQuiet w0 w1 ev) evs initialWorld w);
      [|exact Hrun].
    split; [apply Forall_nil; exact I|]. intros _. repeat split. }
  destruct (proj2 Hinv Hfalse) as (Hp & Ht & Hst).
  repeat split; try assumption.
  intros k. rewrite (renderError_reachable w k Hr), Hfalse. reflexivity.
Qed.

Lemma state_ext (s1 s2 : State) :
  formValues s1 = formValues s2 ->
  errors s1 = errors s2 ->
  formSubmitted s1 = formSubmitted s2 ->
  showPopup s1 = showPopup s2 ->
  s1 = s2.
Proof.
  destruct s1, s2. unfold formValues. cbn. intros Hv He Hf Hp.
  injection Hv as -> -> -> -> -> ->. subst. reflexivity.
Qed.

(** X8. Two submits in a row do what one does: the second leaves the
    component state of the first as it is, and only queues one more timer
    when the snapshot has no errors. *)
Theorem second_submit_changes_nothing_but_timers (w : World) :
  exists w1 w2,
    step w (ui submit) = Some w1
    /\ step w1 (ui submit) = Some w2
    /\ comp w2 = comp w1
    /\ clock w2 = clock w1
    /\ timers w2 =
         timers w1 ++ (if bool_decide (errors (comp w1) = ∅)
                       then [mkTimer (clock w1 + 5000) dismiss] else []).
Proof.
  destruct (step_submit w) as (w1 & Hs1 & Hv1 & He1 & Hf1 & Hp1 & _).
  destruct (step_submit w1) as (w2 & Hs2 & Hv2 & He2 & Hf2 & Hp2 & Ht2 & Hc2).
  exists w1, w2. split; [exact Hs1|]. split; [exact Hs2|].
  rewrite Hv1 in He2, Hp2, Ht2. rewrite <- He1 in He2, Hp2, Ht2.
  split; [|split; [exact Hc2|]].
  - apply state_ext; [exact Hv2|exact He2|congruence|].
    rewrite Hp2, He1, Hp1. destruct (bool_decide _); reflexivity.
  - rewrite Ht2. destruct (bool_decide (errors (comp w1) = ∅)); [reflexivity|].
    symmetry. apply app_nil_r.
Qed.

Lemma withField_comm (f1 f2 : Field) (v1 v2 : FieldValue) (fd : FormDataProps.t) :
  f1 <> f2 ->
  withField f1 v1 (withField f2 v2 fd) = withField f2 v2 (withField f1 v1 fd).
Proof. intros Hne. destruct f1, v1, f2, v2; try reflexivity; congruence. Qed.

Lemma consent_withField_ne (f : Field) (v : FieldValue) (fd : FormDataProps.t) :
  f <> ConsentF ->
  FormDataProps.consent (withField f v fd) = FormDataProps.consent fd.
Proof. intros Hne. destruct f, v; try reflexivity; congruence. Qed.

(** Which edit an event is depends on the state through [consent] only. *)
Lemma editOf_stable (u : UIEvent) (s s' : State) (f : Field) (v : FieldValue) :
  editOf u s = Some (f, v) ->
  (f = ConsentF -> consent s' = consent s) ->
  editOf u s' = Some (f, v).
Proof.
  destruct u; cbn; intros He Hc; simplify_eq; try reflexivity.
  rewrite Hc by reflexivity. reflexivity.
Qed.

Lemma two_edits (w : World) (u1 u2 : UIEvent) (f1 f2 : Field) (v1 v2 : FieldValue) :
  editOf u1 (comp w) = Some (f1, v1) ->
  editOf u2 (comp w) = Some (f2, v2) ->
  f1 <> f2 ->
  exists w2,
    run w [ui u1; ui u2] = Some w2
    /\ formValues (comp w2) = withField f2 v2 (withField f1 v1 (formValues (comp w)))
    /\ errors (comp w2) =
         (if formSubmitted (comp w)
          then <[fieldName f2 :=
                   getProp (validateForm
                              (withField f2 v2 (withField f1 v1 (formValues (comp w)))))
                     (fieldName f2)]>
                 (<[fieldName f1 :=
                      getProp (validateForm (withField f1 v1 (formValues (comp w))))
                        (fieldName f1)]> (errors (comp w)))
          else errors (comp w))
    /\ formSubmitted (comp w2) = formSubmitted (comp w)
    /\ showPopup (comp w2) = showPopup (comp w).
Proof.
  intros He1 He2 Hne.
  destruct (step_edit w u1 f1 v1 He1) as (w1 & Hs1 & Hv1 & Herr1 & Hf1 & Hp1 & _).
  assert (He2' : editOf u2 (comp w1) = Some (f2, v2)).
  { apply (editOf_stable u2 (comp w) (comp w1) f2 v2 He2). intros ->.
    change (FormDataProps.consent (formValues (comp w1))
            = FormDataProps.consent (formValues (comp w))).
    rewrite Hv1. apply consent_withField_ne. exact Hne. }
  destruct (step_edit w1 u2 f2 v2 He2') as (w2 & Hs2 & Hv2 & Herr2 & Hf2 & Hp2 & _).
  exists w2. cbn [run]. rewrite Hs1, Hs2.
  split; [reflexivity|]. rewrite Hv2, Herr2, Hf2, Hp2, Hf1, Hv1, Herr1, Hp1.
  repeat split. destruct (formSubmitted (comp w)); reflexivity.
Qed.

(** X9. Edits of two different fields commute: done in either order from
    the same state they end with the same field values, the same [errors]
    and the same flags. *)
Theorem edits_of_different_fields_commute
    (w : World) (u1 u2 : UIEvent) (f1 f2 : Field) (v1 v2 : FieldValue) :
  editOf u1 (comp w) = Some (f1, v1) ->
  editOf u2 (comp w) = Some (f2, v2) ->
  f1 <> f2 ->
  exists wa wb,
    run w [ui u1; ui u2] = Some wa
    /\ run w [ui u2; ui u1] = Some wb
    /\ comp wa = comp wb.
Proof.
  intros He1 He2 Hne.
  destruct (two_edits w u1 u2 f1 f2 v1 v2 He1 He2 Hne)
    as (wa & Hra & Hva & Hea & Hfa & Hpa).
  destruct (two_edits w u2 u1 f2 f1 v2 v1 He2 He1 (not_eq_sym Hne))
    as (wb & Hrb & Hvb & Heb & Hfb & Hpb).
  exists wa, wb. split; [exact Hra|]. split; [exact Hrb|].
  assert (Hk : fieldName f1 <> fieldName f2)
    by (intros E; apply Hne; exact (fieldName_inj _ _ E)).
  apply state_ext.
  - rewrite Hva, Hvb. symmetry. apply withField_comm. exact Hne.
  - rewrite Hea, Heb. destruct (formSubmitted (comp w)); [|reflexivity].
    assert (H2 : validateForm (withField f2 v2 (withField f1 v1 (formValues (comp w))))
                   !! fieldName f2
                 = validateForm (withField f2 v2 (formValues (comp w))) !! fieldName f2).
    { rewrite <- (withField_comm f1 f2 v1 v2 _ Hne).
      apply validateForm_withField_other. congruence. }
    assert (H1 : validateForm (withField f1 v1 (withField f2 v2 (formValues (comp w))))
                   !! fieldName f1
                 = validateForm (withField f1 v1 (formValues (comp w))) !! fieldName f1).
    { rewrite (withField_comm f1 f2 v1 v2 _ Hne).
      apply validateForm_withField_other. exact Hk. }
    unfold getProp. rewrite H1, H2. apply insert_insert_ne. congruence.
  - congruence.
  - congruence.
Qed.

(** X10. Clicking the consent box twice gives back the field values there
    were; the entries of all keys but ["consent"] are untouched, and in a
    reachable state the page renders the same errors as before. *)
Theorem consent_double_click_restores (w : World) :
  exists w1 w2,
    step w (ui clickConsent) = Some w1
    /\ step w1 (ui clickConsent) = Some w2
    /\ formValues (comp w2) = formValues (comp w)
    /\ (forall k : string, k <> "consent" ->
          errors (comp w2) !! k = errors (comp w) !! k)
    /\ (reachable w -> forall k, renderError (comp w2) k = renderError (comp w) k).
Proof.
  destruct (step_edit w clickConsent ConsentF _ eq_refl)
    as (w1 & Hs1 & Hv1 & He1 & Hf1 & _).
  destruct (step_edit w1 clickConsent ConsentF _ eq_refl)
    as (w2 & Hs2 & Hv2 & He2 & Hf2 & _).
  assert (Hv : formValues (comp w2) = formValues (comp w)).
  { rewrite Hv2, Hv1.
    change (consent (comp w1)) with (FormDataProps.consent (formValues (comp w1))).
    rewrite Hv1. cbn. rewrite negb_involutive. reflexivity. }
  exists w1, w2. split; [exact Hs1|]. split; [exact Hs2|]. split; [exact Hv|]. split.
  - intros k Hk. rewrite He2, Hf1, He1.
    destruct (formSubmitted (comp w)); [|reflexivity].
    cbn [fieldName]. rewrite !lookup_insert_ne by congruence. reflexivity.
  - intros Hr k.
    assert (Hr2 : reachable w2).
    { apply (reachable_run w w2 [ui clickConsent; ui clickConsent] Hr).
      cbn [run]. rewrite Hs1, Hs2. reflexivity. }
    rewrite (renderError_reachable w2 k Hr2), (renderError_reachable w k Hr).
    rewrite Hv, Hf2, Hf1. reflexivity.
Qed.

Lemma step_querySelected (w w' : World) (ev : Event) :
  querySelected w -> step w ev = Some w' -> querySelected w'.
Proof.
  intros [Hd Hq] Hs. split; [exact (step_timersDismiss w w' ev Hd Hs)|].
  change (is_Some (FormDataProps.queryType (formValues (comp w')))).
  change (is_Some (FormDataProps.queryType (formValues (comp w)))) in Hq.
  destruct ev as [u|i|d].
  - destruct (editOf u (comp w)) as [[f v]|] eqn:He.
    + destruct (step_edit w u f v He) as (w1 & Hw1 & Hv & _).
      rewrite Hw1 in Hs. injection Hs as <-. rewrite Hv.
      destruct u; cbn in He; simplify_eq; cbn; eauto.
    + apply editOf_None in He. subst u.
      destruct (step_submit w) as (w1 & Hw1 & Hv & _).
      rewrite Hw1 in Hs. injection Hs as <-. rewrite Hv. exact Hq.
  - destruct (step_timerFires w w' i Hd Hs) as (t & _ & _ & Hv & _).
    rewrite Hv. exact Hq.
  - injection Hs as <-. exact Hq.
Qed.

(** X11. A query type, once selected, is never deselected: after any
    further events one is still selected, and no error is rendered for it. *)
Theorem query_type_stays_selected
    (w w' : World) (evs : list Event) (q : QueryType) :
  reachable w ->
  selectedQuery (comp w) = Some q ->
  run w evs = Some w' ->
  (exists q', selectedQuery (comp w') = Some q')
  /\ renderError (comp w') "queryType" = None.
Proof.
  intros Hr Hq Hrun.
  assert (Hsel : querySelected w')
    by (apply (run_invariant querySelected
                 (fun w0 ev w1 => step_querySelected w0 w1 ev) evs w w');
        [split; [exact (reachable_timersDismiss w Hr)|rewrite Hq; eauto]|exact Hrun]).
  destruct Hsel as [_ [q' Hq']]. split; [exists q'; exact Hq'|].
  rewrite (renderError_reachable w' "queryType" (reachable_run w w' evs Hr Hrun)).
  destruct (formSubmitted (comp w')); [|reflexivity].
  rewrite validateForm_queryType.
  change (FormDataProps.queryType (formValues (comp w'))) with (selectedQuery (comp w')).
  rewrite Hq'. reflexivity.
Qed.

(** ** Handlers and the store *)

Lemma keeps_ret {A : Type} (a : A) : keepsObjects (ret a).
Proof. intros m m' a' H. injection H as _ <-. reflexivity. Qed.

Lemma keeps_bind {A B : Type} (c : JS A) (k : A -> JS B) :
  keepsObjects c -> (forall a, keepsObjects (k a)) -> keepsObjects (bind c k).
Proof.
  intros Hc Hk m m' b H. unfold bind in H.
  destruct (c m) as [[a m1]|] eqn:E; [|discriminate H].
  transitivity (heap m1); [exact (Hc m m1 a E)|exact (Hk a m1 m' b H)].
Qed.

Lemma keeps_call (e : Effect) : keepsObjects (call e).
Proof. intros m m' a H. injection H as _ <-. reflexivity. Qed.

Lemma keeps_alloc (o : Obj) : keepsObjects (alloc o).
Proof.
  intros m m' a H. injection H as _ <-. cbn.
  apply insert_subseteq. apply fresh_loc_unused.
Qed.

Lemma keeps_readForm {A : Type} (l : loc) (p : FormDataProps.t -> A) :
  keepsObjects (readForm l p).
Proof.
  intros m m' a H. unfold readForm in H.
  destruct (heap m !! l) as [[fd|e]|]; try discriminate H.
  injection H as _ <-. reflexivity.
Qed.

Lemma keeps_readError (l : loc) (k : string) : keepsObjects (readError l k).
Proof.
  intros m m' a H. unfold readError in H.
  destruct (heap m !! l) as [[fd|e]|]; try discriminate H.
  injection H as _ <-. reflexivity.
Qed.

Lemma keeps_readErrors (l : loc) : keepsObjects (readErrors l).
Proof.
  intros m m' a H. unfold readErrors in H.
  destruct (heap m !! l) as [[fd|e]|]; try discriminate H.
  injection H as _ <-. reflexivity.
Qed.

Lemma keeps_keysLength (l : loc) : keepsObjects (keysLength l).
Proof.
  intros m m' a H. unfold keysLength in H.
  destruct (heap m !! l) as [[fd|e]|]; try discriminate H.
  injection H as _ <-. reflexivity.
Qed.

(** [validateForm] writes, but only to the object it has allocated. *)
Lemma keeps_validateFormJS (formData : loc) : keepsObjects (validateFormJS formData).
Proof.
  intros m m' a H.
  destruct (heap m !! formData) as [[fd|e]|] eqn:Hl.
  - rewrite (validateFormJS_run m formData fd Hl) in H. injection H as _ <-.
    cbn. apply insert_subseteq. apply fresh_loc_unused.
  - exfalso. unfold validateFormJS in H. unfold bind at 1 2 in H.
    unfold alloc, readForm in H. cbn [heap] in H.
    rewrite lookup_insert in H. destruct (decide _) in H; [discriminate H|].
    rewrite Hl in H. discriminate H.
  - exfalso. unfold validateFormJS in H. unfold bind at 1 2 in H.
    unfold alloc, readForm in H. cbn [heap] in H.
    rewrite lookup_insert in H. destruct (decide _) in H; [discriminate H|].
    rewrite Hl in H. discriminate H.
Qed.

Ltac keeps_objects :=
  repeat first
    [ apply keeps_ret | apply keeps_call | apply keeps_alloc
    | apply keeps_readForm | apply keeps_readError | apply keeps_readErrors
    | apply keeps_keysLength | apply keeps_validateFormJS
    | apply keeps_bind; [|intros ?]
    | match goal with |- keepsObjects (if ?b then _ else _) => destruct b end ].

Lemma keeps_handlerOf (u : UIEvent) (s : State) : keepsObjects (handlerOf u s).
Proof.
  destruct u; unfold handlerOf, handleFormSubmit, onChangeFirstName,
    onChangeLastName, onChangeEmail, onClickGeneralEnquiry, onClickSupportRequest,
    onChangeMessage, onClickConsent, revalidate, getFormData, spread;
    keeps_objects.
Qed.

Lemma store_applyEffect (w : World) (e : Effect) : store (applyEffect w e) = store w.
Proof. destruct e; reflexivity. Qed.

Lemma store_flush (effects : list Effect) (w : World) :
  store (flush w effects) = store w.
Proof.
  unfold flush. revert w.
  induction effects as [|e effects IH]; intros w; cbn; [reflexivity|].
  rewrite IH. apply store_applyEffect.
Qed.

(** X12. Every UI handler runs to completion whatever the state and the
    store are (no dereference fails), and every object that was in the
    store before it ran is there, unchanged, afterwards. *)
Theorem handlers_complete_and_keep_objects (w : World) (u : UIEvent) :
  exists w',
    step w (ui u) = Some w'
    /\ (forall (l : loc) (o : Obj), store w !! l = Some o -> store w' !! l = Some o).
Proof.
  assert (Hex : exists w', step w (ui u) = Some w').
  { destruct (editOf u (comp w)) as [[f v]|] eqn:He.
    - destruct (step_edit w u f v He) as (w' & Hs & _). eauto.
    - apply editOf_None in He. subst u.
      destruct (step_submit w) as (w' & Hs & _). eauto. }
  destruct Hex as [w' Hs]. exists w'. split; [exact Hs|].
  unfold step in Hs.
  destruct (handlerOf u (comp w) {| heap := store w; pending := [] |})
    as [[a m]|] eqn:Hh; [|discriminate Hs].
  injection Hs as <-. rewrite store_flush. cbn [store].
  intros l o Hl.
  exact (lookup_weaken _ _ _ _ Hl (keeps_handlerOf u (comp w) _ _ _ Hh)).
Qed.

(** ** The message cap *)

Lemma step_messageCapped (w w' : World) (ev : Event) :
  withinCap ev -> messageCapped w -> step w ev = Some w' -> messageCapped w'.
Proof.
  intros Hcap [Hd Hlen] Hs. split; [exact (step_timersDismiss w w' ev Hd Hs)|].
  change (length (FormDataProps.message (formValues (comp w'))) <= 500)%nat.
  change (length (FormDataProps.message (formValues (comp w))) <= 500)%nat in Hlen.
  destruct ev as [u|i|d].
  - destruct (editOf u (comp w)) as [[f v]|] eqn:He.
    + destruct (step_edit w u f v He) as (w1 & Hw1 & Hv & _).
      rewrite Hw1 in Hs. injection Hs as <-. rewrite Hv.
      destruct u; cbn in He; simplify_eq; cbn; assumption.
    + apply editOf_None in He. subst u.
      destruct (step_submit w) as (w1 & Hw1 & Hv & _).
      rewrite Hw1 in Hs. injection Hs as <-. rewrite Hv. exact Hlen.
  - destruct (step_timerFires w w' i Hd Hs) as (t & _ & _ & Hv & _).
    rewrite Hv. exact Hlen.
  - injection Hs as <-. exact Hlen.
Qed.

Lemma run_messageCapped (evs : list Event) (w w' : World) :
  Forall withinCap evs -> messageCapped w -> run w evs = Some w' -> messageCapped w'.
Proof.
  revert w. induction evs as [|ev evs IH]; intros w Hall Hw Hrun; cbn [run] in Hrun.
  - injection Hrun as <-. exact Hw.
  - apply Forall_cons in Hall. destruct Hall as [Hev Hall].
    destruct (step w ev) as [w1|] eqn:Hs; [|discriminate Hrun].
    exact (IH w1 Hall (step_messageCapped w w1 ev Hev Hw Hs) Hrun).
Qed.

(** X13. When the message values that reach the page respect the cap of the
    [textarea] (at most 500 code units), the message held is never longer
    than 500, and the length message is rendered under the message field
    only for a message shorter than 10. *)
Theorem capped_message_errors_only_when_short (evs : list Event) (w : World) :
  Forall withinCap evs ->
  run initialWorld evs = Some w ->
  (length (message (comp w)) <= 500)%nat
  /\ (renderError (comp w) "message"
        = Some "Message must be between 10 and 500 characters." ->
      (length (message (comp w)) < 10)%nat).
Proof.
  intros Hall Hrun.
  assert (Hcap : messageCapped w).
  { apply (run_messageCapped evs initialWorld w Hall); [|exact Hrun].
    split; [apply Forall_nil; exact I|cbn; lia]. }
  destruct Hcap as [_ Hlen]. split; [exact Hlen|].
  rewrite (renderError_reachable w "message" (ex_intro _ evs Hrun)).
  destruct (formSubmitted (comp w)); [|intros H; discriminate H].
  rewrite validateForm_message.
  change (FormDataProps.message (formValues (comp w))) with (message (comp w)).
  unfold messageSchema, z.string_min_max.
  destruct (10 <=? length (message (comp w)))%nat eqn:Hlo.
  - apply Nat.leb_le in Hlo.
    rewrite (proj2 (Nat.leb_le _ _) Hlen). cbn.
    destruct (isEmptyString _); intros H; discriminate H.
  - intros _. apply Nat.leb_gt in Hlo. exact Hlo.
Qed.

End ContactForm.

(** ** The theorems at concrete inputs, with [coarseEmail] as email check *)

Lemma validateForm_key_iff_rule_violated_witness :
  (forall f : Field, satisfiesRule coarseEmail f (fieldValue f janeDoe) = true)
  /\ validateForm coarseEmail janeDoe = ∅.
Proof.
  assert (Hall : forall f : Field,
             satisfiesRule coarseEmail f (fieldValue f janeDoe) = true)
    by (intros f; destruct f; reflexivity).
  split; [exact Hall|].
  exact (proj2 (proj2 (validateForm_key_iff_rule_violated coarseEmail janeDoe)) Hall).
Defined.

Lemma whitespace_within_bound_is_required_witness :
  whitespaceOnly (FormDataProps.firstName tenSpaces) = true
  /\ (2 <= length (FormDataProps.firstName tenSpaces) <= 50)%nat
  /\ validateForm coarseEmail tenSpaces !! "firstName"
       = Some (Msg "This field is required").
Proof.
  assert (Hw : whitespaceOnly (FormDataProps.firstName tenSpaces) = true)
    by reflexivity.
  assert (Hlen : (2 <= length (FormDataProps.firstName tenSpaces) <= 50)%nat)
    by (vm_compute; lia).
  split; [exact Hw|]. split; [exact Hlen|].
  exact (proj1 (whitespace_within_bound_is_required coarseEmail tenSpaces) Hw Hlen).
Defined.

Lemma submit_pristine_form_all_errors_witness :
  coarseEmail [] = false
  /\ formValues (comp initialWorld) = formValues initialState
  /\ formSubmitted (comp initialWorld) = false
  /\ exists w',
       step coarseEmail initialWorld (ui submit) = Some w'
       /\ (forall f : Field, exists msg, errors (comp w') !! fieldName f = Some (Msg msg))
       /\ formSubmitted (comp w') = true
       /\ showPopup (comp w') = showPopup (comp initialWorld)
       /\ timers w' = timers initialWorld.
Proof.
  split; [reflexivity|]. split; [reflexivity|]. split; [reflexivity|].
  apply (submit_pristine_form_all_errors coarseEmail initialWorld); reflexivity.
Defined.

Lemma edit_after_submit_patches_one_entry_witness :
  run coarseEmail initialWorld [ui submit] = Some (emptySubmitted coarseEmail)
  /\ formSubmitted (comp (emptySubmitted coarseEmail)) = true
  /\ editOf (changeEmail (of_string "jane@example.com"))
       (comp (emptySubmitted coarseEmail))
       = Some (EmailF, TextV (of_string "jane@example.com"))
  /\ exists w',
       step coarseEmail (emptySubmitted coarseEmail)
         (ui (changeEmail (of_string "jane@example.com"))) = Some w'
       /\ getProp (errors (comp w')) "email" = undefined
       /\ (forall k : string, k <> "email" ->
             errors (comp w') !! k = errors (comp (emptySubmitted coarseEmail)) !! k).
Proof.
  split; [vm_compute; reflexivity|].
  split; [reflexivity|]. split; [reflexivity|].
  destruct (edit_after_submit_patches_one_entry coarseEmail
              (emptySubmitted coarseEmail)
              (changeEmail (of_string "jane@example.com")) EmailF
              (TextV (of_string "jane@example.com")) eq_refl eq_refl)
    as (w' & Hstep & _ & _ & _ & Hclear & _ & Hframe).
  exists w'. split; [exact Hstep|]. split; [apply Hclear; reflexivity|exact Hframe].
Defined.

Lemma popup_only_after_valid_submit_witness :
  (reachable coarseEmail janeDoeEntered
   /\ showPopup (comp janeDoeEntered) = false
   /\ exists w',
        step coarseEmail janeDoeEntered (ui submit) = Some w'
        /\ showPopup (comp w') = true
        /\ validateForm coarseEmail (formValues (comp janeDoeEntered)) = ∅)
  /\ run coarseEmail initialWorld (enterJaneDoe ++ [ui submit; elapse 100])
       = Some janeDoeSubmitted
  /\ showPopup (comp janeDoeSubmitted) = true
  /\ exists (pre post : list Event) (w0 : World),
       enterJaneDoe ++ [ui submit; elapse 100] = pre ++ ui submit :: post
       /\ run coarseEmail initialWorld pre = Some w0
       /\ validateForm coarseEmail (formValues (comp w0)) = ∅
       /\ Forall (fun ev => isTimerFires ev = false) post.
Proof.
  assert (Hreach : reachable coarseEmail janeDoeEntered)
    by (exists enterJaneDoe; vm_compute; reflexivity).
  assert (Hrun : run coarseEmail initialWorld (enterJaneDoe ++ [ui submit; elapse 100])
                 = Some janeDoeSubmitted) by (vm_compute; reflexivity).
  split.
  - split; [exact Hreach|]. split; [reflexivity|].
    destruct (step_submit coarseEmail janeDoeEntered)
      as (w' & Hstep & _ & _ & _ & Hshow & _).
    exists w'. split; [exact Hstep|]. split; [exact Hshow|].
    exact (proj2 (proj1 (popup_only_after_valid_submit coarseEmail)
                    janeDoeEntered w' (ui submit) Hreach Hstep eq_refl Hshow)).
  - split; [exact Hrun|]. split; [reflexivity|].
    exact (proj2 (popup_only_after_valid_submit coarseEmail) _ _ Hrun eq_refl).
Defined.

Lemma valid_submit_popup_and_timer_witness :
  reachable coarseEmail janeDoeEntered
  /\ validateForm coarseEmail (formValues (comp janeDoeEntered)) = ∅
  /\ exists w1,
       step coarseEmail janeDoeEntered (ui submit) = Some w1
       /\ showPopup (comp w1) = true
       /\ timers w1 = [mkTimer 5000 dismiss]
       /\ forall (evs : list Event) (w2 : World),
            run coarseEmail w1 evs = Some w2 ->
            (clock w2 < 5000)%N ->
            showPopup (comp w2) = true.
Proof.
  assert (Hreach : reachable coarseEmail janeDoeEntered)
    by (exists enterJaneDoe; vm_compute; reflexivity).
  assert (Hvalid : validateForm coarseEmail (formValues (comp janeDoeEntered)) = ∅)
    by reflexivity.
  split; [exact Hreach|]. split; [exact Hvalid|].
  destruct (valid_submit_popup_and_timer coarseEmail janeDoeEntered Hreach Hvalid)
    as (w1 & Hstep & Hshow & Htimers & _ & _ & _ & _ & Hheld).
  exists w1. split; [exact Hstep|]. split; [exact Hshow|].
  split; [exact Htimers|]. exact (Hheld eq_refl).
Defined.

Lemma formSubmitted_latches_witness :
  run coarseEmail initialWorld ([] ++ ui submit :: []) = Some (emptySubmitted coarseEmail)
  /\ formSubmitted (comp (emptySubmitted coarseEmail)) = true
  /\ reachable coarseEmail janeDoeEntered
  /\ formSubmitted (comp janeDoeEntered) = false
  /\ errors (comp janeDoeEntered) = ∅.
Proof.
  assert (Hrun : run coarseEmail initialWorld ([] ++ ui submit :: [])
                 = Some (emptySubmitted coarseEmail)) by (vm_compute; reflexivity).
  assert (Hreach : reachable coarseEmail janeDoeEntered)
    by (exists enterJaneDoe; vm_compute; reflexivity).
  destruct (formSubmitted_latches_and_pristine_edits_skip_validation coarseEmail)
    as (_ & Hlatch & _ & _ & Hclean).
  split; [exact Hrun|].
  split; [exact (Hlatch [] [] _ Hrun)|].
  split; [exact Hreach|]. split; [reflexivity|].
  exact (Hclean janeDoeEntered Hreach eq_refl).
Defined.

Lemma validateForm_pure_witness :
  let m1 := {| heap := {[1%positive := FormDataObj janeDoe]}; pending := [] |} in
  let m2 := {| heap := {[2%positive := ErrorsObj ∅; 5%positive := FormDataObj janeDoe]};
               pending := [setShowPopup (value true)] |} in
  heap m1 !! 1%positive = Some (FormDataObj janeDoe)
  /\ heap m2 !! 5%positive = Some (FormDataObj janeDoe)
  /\ exists (r1 r2 : loc) (m1' m2' : Machine),
       validateFormJS coarseEmail 1%positive m1 = Some (r1, m1')
       /\ validateFormJS coarseEmail 5%positive m2 = Some (r2, m2')
       /\ heap m1' !! r1 = Some (ErrorsObj (validateForm coarseEmail janeDoe))
       /\ heap m2' !! r2 = Some (ErrorsObj (validateForm coarseEmail janeDoe))
       /\ heap m1 !! r1 = None
       /\ heap m1' !! 1%positive = Some (FormDataObj janeDoe)
       /\ (forall l : loc, l <> r1 -> heap m1' !! l = heap m1 !! l)
       /\ pending m1' = pending m1.
Proof.
  intros m1 m2.
  split; [reflexivity|]. split; [reflexivity|].
  exact (validateForm_pure coarseEmail m1 m2 1%positive 5%positive janeDoe
           eq_refl eq_refl).
Defined.

Lemma name_length_message_before_required_witness :
  let fd := FormDataProps.with_firstName [32%N] janeDoe in
  ~ (2 <= length (FormDataProps.firstName fd) <= 50)%nat
  /\ validateForm coarseEmail fd !! "firstName"
       = Some (Msg "First name must be between 2 and 50 characters").
Proof.
  intros fd.
  assert (Hlen : ~ (2 <= length (FormDataProps.firstName fd) <= 50)%nat)
    by (vm_compute; lia).
  split; [exact Hlen|].
  exact (proj1 (name_length_message_before_required coarseEmail fd) Hlen).
Defined.

Lemma field_entry_depends_on_own_value_only_witness :
  let fd := FormDataProps.with_email (of_string "jane") janeDoe in
  let fd' := FormDataProps.mk None [] [] (of_string "jane") [] false in
  (fieldValue EmailF fd = fieldValue EmailF fd'
   /\ validateForm coarseEmail fd !! "email" = validateForm coarseEmail fd' !! "email")
  /\ formSubmitted (comp (emptySubmitted coarseEmail)) = true
  /\ formSubmitted (comp janeDoeSubmitted) = true
  /\ exists w1' w2' : World,
       step coarseEmail (emptySubmitted coarseEmail)
         (ui (changeEmail (of_string "jane"))) = Some w1'
       /\ step coarseEmail janeDoeSubmitted
            (ui (changeEmail (of_string "jane"))) = Some w2'
       /\ errors (comp w1') !! "email" = errors (comp w2') !! "email".
Proof.
  intros fd fd'.
  destruct (field_entry_depends_on_own_value_only coarseEmail) as [Hlocal Hpatch].
  split; [split; [reflexivity|exact (Hlocal EmailF fd fd' eq_refl)]|].
  split; [reflexivity|]. split; [reflexivity|].
  destruct (step_edit coarseEmail (emptySubmitted coarseEmail)
              (changeEmail (of_string "jane")) EmailF (TextV (of_string "jane")) eq_refl)
    as (w1' & Hs1 & _).
  destruct (step_edit coarseEmail janeDoeSubmitted
              (changeEmail (of_string "jane")) EmailF (TextV (of_string "jane")) eq_refl)
    as (w2' & Hs2 & _).
  exists w1', w2'. split; [exact Hs1|]. split; [exact Hs2|].
  exact (Hpatch (emptySubmitted coarseEmail) janeDoeSubmitted w1' w2'
           (changeEmail (of_string "jane")) (changeEmail (of_string "jane"))
           EmailF (TextV (of_string "jane"))
           eq_refl eq_refl eq_refl eq_refl Hs1 Hs2).
Defined.

(** ** The further properties at concrete inputs *)

Lemma reachable_emptySubmitted : reachable coarseEmail (emptySubmitted coarseEmail).
Proof. exists [ui submit]. vm_compute. reflexivity. Qed.

Lemma reachable_janeDoeEntered : reachable coarseEmail janeDoeEntered.
Proof. exists enterJaneDoe. vm_compute. reflexivity. Qed.

Lemma reachable_janeDoeSubmitted : reachable coarseEmail janeDoeSubmitted.
Proof. exists (enterJaneDoe ++ [ui submit; elapse 100]). vm_compute. reflexivity. Qed.

Lemma errors_track_current_values_witness :
  reachable coarseEmail (emptySubmitted coarseEmail)
  /\ formSubmitted (comp (emptySubmitted coarseEmail)) = true
  /\ getProp (errors (comp (emptySubmitted coarseEmail))) "email"
       = getProp (validateForm coarseEmail
                    (formValues (comp (emptySubmitted coarseEmail)))) "email".
Proof.
  split; [exact reachable_emptySubmitted|]. split; [reflexivity|].
  exact (errors_track_current_values coarseEmail (emptySubmitted coarseEmail) "email"
           reachable_emptySubmitted eq_refl).
Defined.

Lemma error_keys_are_field_names_witness :
  reachable coarseEmail (emptySubmitted coarseEmail)
  /\ errors (comp (emptySubmitted coarseEmail)) !! "email"
       = Some (Msg "Please enter a valid email address")
  /\ (exists f, "email" = fieldName f)
  /\ (Msg "Please enter a valid email address" = undefined
      \/ exists m, Msg "Please enter a valid email address" = Msg m /\ m <> "").
Proof.
  assert (Hx : errors (comp (emptySubmitted coarseEmail)) !! "email"
               = Some (Msg "Please enter a valid email address")) by reflexivity.
  split; [exact reachable_emptySubmitted|]. split; [exact Hx|].
  exact (error_keys_are_field_names coarseEmail (emptySubmitted coarseEmail) "email" _
           reachable_emptySubmitted Hx).
Defined.

Lemma rendered_error_iff_submitted_and_violated_witness :
  reachable coarseEmail (emptySubmitted coarseEmail)
  /\ is_Some (renderError (comp (emptySubmitted coarseEmail)) "email").
Proof.
  split; [exact reachable_emptySubmitted|].
  apply (proj1 (rendered_error_iff_submitted_and_violated coarseEmail
                  (emptySubmitted coarseEmail) EmailF reachable_emptySubmitted)).
  split; reflexivity.
Defined.

Lemma resubmit_follows_rendered_errors_witness :
  reachable coarseEmail janeDoeSubmitted
  /\ formSubmitted (comp janeDoeSubmitted) = true
  /\ (forall f, renderError (comp janeDoeSubmitted) (fieldName f) = None)
  /\ exists w',
       step coarseEmail janeDoeSubmitted (ui submit) = Some w'
       /\ showPopup (comp w') = true
       /\ timers w' = [mkTimer 5000 dismiss; mkTimer 5100 dismiss].
Proof.
  assert (Hnone : forall f, renderError (comp janeDoeSubmitted) (fieldName f) = None)
    by (intros f; destruct f; reflexivity).
  split; [exact reachable_janeDoeSubmitted|]. split; [reflexivity|].
  split; [exact Hnone|].
  destruct (resubmit_follows_rendered_errors coarseEmail janeDoeSubmitted
              reachable_janeDoeSubmitted eq_refl) as (w' & Hstep & Hvalid & _).
  exists w'. split; [exact Hstep|]. exact (Hvalid Hnone).
Defined.

Lemma field_value_changes_only_by_its_edit_witness :
  let w' := {| comp := {| firstName := of_string "Jane"; lastName := of_string "Doe";
                          email := of_string "jd@example.com";
                          selectedQuery := Some generalEnquiry; consent := true;
                          message := of_string "Hello, this is a test message.";
                          errors := ∅; formSubmitted := false; showPopup := false |};
               store := ∅; timers := []; clock := 0 |} in
  reachable coarseEmail janeDoeEntered
  /\ step coarseEmail janeDoeEntered (ui (changeEmail (of_string "jd@example.com")))
       = Some w'
  /\ fieldValue EmailF (formValues (comp w'))
       <> fieldValue EmailF (formValues (comp janeDoeEntered))
  /\ exists u,
       ui (changeEmail (of_string "jd@example.com")) = ui u
       /\ editOf u (comp janeDoeEntered)
            = Some (EmailF, fieldValue EmailF (formValues (comp w'))).
Proof.
  intros w'.
  assert (Hstep : step coarseEmail janeDoeEntered
                    (ui (changeEmail (of_string "jd@example.com"))) = Some w')
    by (vm_compute; reflexivity).
  assert (Hne : fieldValue EmailF (formValues (comp w'))
                <> fieldValue EmailF (formValues (comp janeDoeEntered)))
    by (vm_compute; intros H; discriminate H).
  split; [exact reachable_janeDoeEntered|]. split; [exact Hstep|]. split; [exact Hne|].
  exact (field_value_changes_only_by_its_edit coarseEmail janeDoeEntered w' _ EmailF
           reachable_janeDoeEntered Hstep Hne).
Defined.

Lemma showing_popup_has_pending_timer_witness :
  reachable coarseEmail janeDoeSubmitted
  /\ showPopup (comp janeDoeSubmitted) = true
  /\ timers janeDoeSubmitted <> [].
Proof.
  split; [exact reachable_janeDoeSubmitted|]. split; [reflexivity|].
  exact (proj1 (showing_popup_has_pending_timer coarseEmail janeDoeSubmitted
                  reachable_janeDoeSubmitted) eq_refl).
Defined.

Lemma nothing_happens_before_first_submit_witness :
  reachable coarseEmail janeDoeEntered
  /\ formSubmitted (comp janeDoeEntered) = false
  /\ showPopup (comp janeDoeEntered) = false
  /\ timers janeDoeEntered = []
  /\ store janeDoeEntered = ∅
  /\ (forall k, renderError (comp janeDoeEntered) k = None).
Proof.
  split; [exact reachable_janeDoeEntered|]. split; [reflexivity|].
  exact (nothing_happens_before_first_submit coarseEmail janeDoeEntered
           reachable_janeDoeEntered eq_refl).
Defined.

Lemma edits_of_different_fields_commute_witness :
  editOf (changeEmail (of_string "jane@example.com"))
    (comp (emptySubmitted coarseEmail))
    = Some (EmailF, TextV (of_string "jane@example.com"))
  /\ editOf clickConsent (comp (emptySubmitted coarseEmail))
       = Some (ConsentF, BoolV true)
  /\ EmailF <> ConsentF
  /\ exists wa wb,
       run coarseEmail (emptySubmitted coarseEmail)
         [ui (changeEmail (of_string "jane@example.com")); ui clickConsent] = Some wa
       /\ run coarseEmail (emptySubmitted coarseEmail)
            [ui clickConsent; ui (changeEmail (of_string "jane@example.com"))] = Some wb
       /\ comp wa = comp wb.
Proof.
  assert (Hne : EmailF <> ConsentF) by (intros H; discriminate H).
  split; [reflexivity|]. split; [reflexivity|]. split; [exact Hne|].
  exact (edits_of_different_fields_commute coarseEmail (emptySubmitted coarseEmail)
           (changeEmail (of_string "jane@example.com")) clickConsent
           EmailF ConsentF _ _ eq_refl eq_refl Hne).
Defined.

Lemma consent_double_click_restores_witness :
  reachable coarseEmail (emptySubmitted coarseEmail)
  /\ exists w1 w2,
       step coarseEmail (emptySubmitted coarseEmail) (ui clickConsent) = Some w1
       /\ step coarseEmail w1 (ui clickConsent) = Some w2
       /\ formValues (comp w2) = formValues (comp (emptySubmitted coarseEmail))
       /\ (forall k, renderError (comp w2) k
                     = renderError (comp (emptySubmitted coarseEmail)) k).
Proof.
  split; [exact reachable_emptySubmitted|].
  destruct (consent_double_click_restores coarseEmail (emptySubmitted coarseEmail))
    as (w1 & w2 & Hs1 & Hs2 & Hv & _ & Hrender).
  exists w1, w2. split; [exact Hs1|]. split; [exact Hs2|]. split; [exact Hv|].
  exact (Hrender reachable_emptySubmitted).
Defined.

Lemma query_type_stays_selected_witness :
  reachable coarseEmail janeDoeEntered
  /\ selectedQuery (comp janeDoeEntered) = Some generalEnquiry
  /\ run coarseEmail janeDoeEntered [ui submit; elapse 100] = Some janeDoeSubmitted
  /\ (exists q', selectedQuery (comp janeDoeSubmitted) = Some q')
  /\ renderError (comp janeDoeSubmitted) "queryType" = None.
Proof.
  assert (Hrun : run coarseEmail janeDoeEntered [ui submit; elapse 100]
                 = Some janeDoeSubmitted) by (vm_compute; reflexivity).
  split; [exact reachable_janeDoeEntered|]. split; [reflexivity|]. split; [exact Hrun|].
  exact (query_type_stays_selected coarseEmail janeDoeEntered janeDoeSubmitted _
           generalEnquiry reachable_janeDoeEntered eq_refl Hrun).
Defined.

Lemma capped_message_errors_only_when_short_witness :
  Forall withinCap [ui submit; ui (changeMessage (of_string "Hello"))]
  /\ exists w,
       run coarseEmail initialWorld [ui submit; ui (changeMessage (of_string "Hello"))]
         = Some w
       /\ (length (message (comp w)) <= 500)%nat
       /\ (renderError (comp w) "message"
             = Some "Message must be between 10 and 500 characters." ->
           (length (message (comp w)) < 10)%nat).
Proof.
  assert (Hcap : Forall withinCap [ui submit; ui (changeMessage (of_string "Hello"))]).
  { apply Forall_cons. split; [exact I|].
    apply Forall_cons. split; [cbn; lia|apply Forall_nil; exact I]. }
  split; [exact Hcap|].
  destruct (run coarseEmail initialWorld
              [ui submit; ui (changeMessage (of_string "Hello"))]) as [w|] eqn:Hrun.
  - exists w. split; [reflexivity|].
    exact (capped_message_errors_only_when_short coarseEmail _ w Hcap Hrun).
  - exfalso. revert Hrun. vm_compute. intros H. discriminate H.
Defined.

(** ** Sample runs *)

Example validateForm_jane :
  validateForm coarseEmail
    (FormDataProps.mk (Some generalEnquiry) (of_string "Jane") (of_string "Doe")
       (of_string "jane@example.com")
       (of_string "Hello, this is a test message.") true) = ∅.
Proof. reflexivity. Qed.

Example validateForm_ten_spaces :
  validateForm coarseEmail
    (FormDataProps.mk None (of_string "          ") [] [] [] false)
    !! "firstName" = Some (Msg "This field is required").
Proof. reflexivity. Qed.

(** An invalid email alone yields exactly the email entry. *)
Example validateForm_invalid_email_alone :
  validateForm coarseEmail (FormDataProps.with_email (of_string "jane") janeDoe)
    = {[ "email" := Msg "Please enter a valid email address" ]}.
Proof. reflexivity. Qed.

(** The empty first name gets the length message. *)
Example validateForm_empty_first_name :
  validateForm coarseEmail (FormDataProps.with_firstName [] janeDoe) !! "firstName"
    = Some (Msg "First name must be between 2 and 50 characters").
Proof. reflexivity. Qed.

(** After a failed submit, a valid email leaves the key ["email"] in place,
    holding [undefined]; reading [errors.email] gives [undefined]. *)
Example edit_keeps_key_with_undefined :
  option_map (fun w => errors (comp w) !! "email")
    (run coarseEmail initialWorld
       [ui submit; ui (changeEmail (of_string "jane@example.com"))])
    = Some (Some undefined).
Proof. vm_compute. reflexivity. Qed.

(** Two valid submits 100 ms apart: the first timer, due at 5000 ms, hides
    the popup 4900 ms after the second submit, whose own timer is pending. *)
Example second_popup_hidden_by_first_timer :
  option_map (fun w => (showPopup (comp w), clock w, timers w))
    (run coarseEmail initialWorld
       (enterJaneDoe ++ [ui submit; elapse 100; ui submit; elapse 4900; timerFires 0]))
    = Some (false, 5000%N, [mkTimer 5100 dismiss]).
Proof. vm_compute. reflexivity. Qed.
